(** * dossier.web: the search route, its filter predicates and pagination

    A shallow embedding of [dossier/web/routes.py] together with the filter
    predicates and the reservoir sampler that the routes call, and the
    properties of the search pipeline that are established on it.

    Python objects are a single inductive type [PyObj], dictionaries and
    feature collections are [gmap]s keyed by strings, a [StringCounter] is a
    multiset of strings, the request's query is the ordered multi-dictionary
    that bottle keeps, and exceptions are values of [Exn] carried in a sum. *)

From stdpp Require Import base option list gmap gmultiset strings pretty sorting.
From Stdlib Require Import ZArith Ascii.

Local Open Scope Z_scope.

(** ** Python values *)

(** The objects that flow through the routes.  [PyStr] is a byte string
    ([str] of Python 2) and [PyUnicode] a [unicode] string: [fc_to_json]
    tells them apart.  A [FeatureCollection] and a [dict] are both mappings
    from names to objects.  A dictionary written [PyDict d] is an object of
    its own; [PyRef a] is the dictionary at the address [a] of a heap, and
    two occurrences of [PyRef a] are one and the same object. *)
#[warnings="-register-all"]
Inductive PyObj : Type :=
  | PyNone
  | PyStr (s : string)
  | PyUnicode (s : string)
  | PyInt (z : Z)
  | PyStringCounter (c : gmultiset string)
  | PyFC (d : gmap string PyObj)
  | PyDict (d : gmap string PyObj)
  | PyTuple (l : list PyObj)
  | PyRef (a : nat).

(** The exceptions the routes raise or let through.  [HTTPError] is what
    [bottle.abort] raises; its argument is the status code. *)
Inductive Exn : Type :=
  | HTTPError (status : Z)
  | KeyError (key : string)
  | ValueError
  | TypeError
  | AttributeError.

(** A computation that either raises or returns. *)
Definition Result (A : Type) : Type := Exn + A.

Definition raise {A} (e : Exn) : Result A := inl e.
Definition ret {A} (a : A) : Result A := inr a.

#[global] Instance result_ret : MRet Result := λ A a, inr a.

#[global] Instance result_fmap : FMap Result := λ A B f m,
  match m with
  | inl e => inl e
  | inr a => inr (f a)
  end.

#[global] Instance result_bind : MBind Result := λ A B k m,
  match m with
  | inl e => inl e
  | inr a => k a
  end.

(** What the client sees: bottle answers an [HTTPError] with its status and
    any other exception that leaves the handler with status 500. *)
Definition http_status {A} (ok : Z) (r : Result A) : Z :=
  match r with
  | inr _ => ok
  | inl (HTTPError st) => st
  | inl _ => 500
  end.

(** ** The query of a request (bottle's [FormsDict])

    The pairs are kept in the order of the query string; a key may occur
    several times. *)
Module Query.

Abbreviation t := (list (string * string)).

(** [request.query.getall(key)]: every value of [key], in order. *)
Definition getall (key : string) (q : t) : list string :=
  (filter (λ kv, kv.1 = key) q).*2.

(** [request.query.get(key)]: the most recent value, [None] when absent. *)
Definition get (key : string) (q : t) : option string :=
  last (getall key q).

(** Every value of [key] is dropped. *)
Definition remove (key : string) (q : t) : t :=
  filter (λ kv, kv.1 ≠ key) q.

(** [request.query.pop(key, default)]. *)
Definition pop (key : string) (dflt : option string) (q : t)
  : option string * t :=
  (from_option Some dflt (get key q), remove key q).

(** [dict(request.query)]: each key with its most recent value. *)
Definition to_dict (q : t) : gmap string string :=
  foldl (λ d kv, <[kv.1 := kv.2]> d) ∅ q.

End Query.

(** ** Python's [int] on a string and [str] on an integer *)

(** [isspace] in the C locale. *)
Definition is_space (c : ascii) : bool :=
  let n := nat_of_ascii c in
  bool_decide (n = 32 ∨ 9 ≤ n ≤ 13)%nat.

Definition digit_val (c : ascii) : option Z :=
  let n := nat_of_ascii c in
  if bool_decide (48 ≤ n ≤ 57)%nat then Some (Z.of_nat n - 48) else None.

Fixpoint lstrip (s : list ascii) : list ascii :=
  match s with
  | c :: s' => if is_space c then lstrip s' else s
  | [] => []
  end.

(** Reads the digits at the front of [s] into [acc]; returns the value and
    what is left. *)
Fixpoint read_digits (acc : Z) (s : list ascii) : Z * list ascii :=
  match s with
  | c :: s' =>
      match digit_val c with
      | Some d => read_digits (10 * acc + d) s'
      | None => (acc, s)
      end
  | [] => (acc, [])
  end.

Definition starts_with_digit (s : list ascii) : bool :=
  match s with
  | c :: _ => bool_decide (is_Some (digit_val c))
  | [] => false
  end.

(** [int(s)] for a string [s] in base ten: blanks, an optional sign, blanks,
    one or more digits, blanks.  [None] stands for [ValueError]. *)
Definition py_int (s : string) : option Z :=
  let s := lstrip (String.list_ascii_of_string s) in
  let '(neg, s) :=
    match s with
    | c :: s' =>
        if bool_decide (c = "-"%char) then (true, lstrip s')
        else if bool_decide (c = "+"%char) then (false, lstrip s')
        else (false, s)
    | [] => (false, [])
    end in
  if starts_with_digit s then
    let '(n, rest) := read_digits 0 s in
    match lstrip rest with
    | [] => Some (if neg : bool then - n else n)
    | _ :: _ => None
    end
  else None.

(** [str(n)] for an integer. *)
Definition py_str (n : Z) : string := pretty n.

(** ** [routes.py]: helpers *)

(** [str_to_max_int(s, maximum)].  The argument is [None] when the query
    has no such parameter: [int(None)] raises [TypeError], a string that is
    no integer raises [ValueError], and both are caught. *)
Definition str_to_max_int (s : option string) (maximum : Z) : Z :=
  match s with
  | None => maximum
  | Some s =>
      match py_int s with
      | Some n => Z.min maximum n
      | None => maximum
      end
  end.

(** [int(request.query.get(key, default))] with an integer default. *)
Definition int_param (key : string) (dflt : Z) (q : Query.t) : Result Z :=
  match Query.get key q with
  | None => ret dflt
  | Some s =>
      match py_int s with
      | Some n => ret n
      | None => raise ValueError
      end
  end.

(** ** [urlparse] and [urllib]

    The library functions [set_query_param] calls.  They are not part of the
    repository, so they are an interface: the five parts of a split URL, the
    dictionary [parse_qs] reads from a query string, and [urlencode] with
    [doseq=True], whose order of parameters is the dictionary's own. *)
Record SplitResult : Type := MkSplit {
  scheme : string;
  netloc : string;
  path : string;
  qs : string;
  frag : string
}.

Class Urllib : Type := {
  urlsplit : string → SplitResult;
  urlunsplit : SplitResult → string;
  parse_qs : string → gmap string (list string);
  urlencode : gmap string (list string) → string
}.

(** [set_query_param(url, param, value)] for a string [value]. *)
Definition set_query_param `{Urllib} (url param value : string) : string :=
  let u := urlsplit url in
  let params := parse_qs (qs u) in
  let params := <[param := [value]]> params in
  let qs' := urlencode params in
  urlunsplit (MkSplit (scheme u) (netloc u) (path u) qs' (frag u)).

(** ** Pagination *)

(** What a handler is given of the request, and the response it fills. *)
Record Request : Type := MkRequest {
  url : string;
  query : Query.t
}.

Record Response : Type := MkResponse {
  status : Z;
  headers : gmap string string
}.

Definition dquote : string := String (ascii_of_nat 34) EmptyString.

(** [tuple_to_link((rel, url))]: the url in angle brackets, then the
    relation in double quotes. *)
Definition tuple_to_link (l : string * string) : string :=
  "<" +:+ l.2 +:+ ">; rel=" +:+ dquote +:+ l.1 +:+ dquote.

(** [', '.join(l)]. *)
Fixpoint join (sep : string) (l : list string) : string :=
  match l with
  | [] => ""
  | [x] => x
  | x :: l' => x +:+ sep +:+ join sep l'
  end.

(** The [links] list that [add_link_headers(page, per)] builds. *)
Definition links `{Urllib} (request : Request) (page : Z)
  : list (string * string) :=
  let setqp param val := set_query_param (url request) param val in
  (if bool_decide (1 < page)
   then [("first"%string, setqp "page"%string "1"%string);
         ("prev"%string, setqp "page"%string (py_str (page - 1)))]
   else [])
  ++ [("next"%string, setqp "page"%string (py_str (page + 1)))].

Definition add_link_headers `{Urllib} (request : Request)
    (response : Response) (page per : Z) : Response :=
  MkResponse (status response)
    (<["Link"%string := join ", " (tuple_to_link <$> links request page)]>
       (headers response)).

(** [sys.maxint], the largest plain integer of the platform. *)
Class Sys : Type := { maxint : Z }.

(** [islice(it, start, stop)]: the items from [start] up to [stop], the
    latter excluded.  An index that is negative or above [sys.maxint]
    raises [ValueError] when the slice is made. *)
Definition islice `{Sys} {A} (it : list A) (start stop : Z)
  : Result (list A) :=
  if bool_decide (0 ≤ start ≤ maxint ∧ 0 ≤ stop ≤ maxint)
  then ret (take (Z.to_nat (stop - start)) (drop (Z.to_nat start) it))
  else raise ValueError.

(** [paginate(request, response, it)]: the response with its [Link] header
    and the slice of the stream.  [int] raises [ValueError] on a parameter
    that is no integer, before the header is set; [islice] raises it on an
    index above [sys.maxint], after the header is set. *)
Definition paginate `{Urllib} `{Sys} {A} (request : Request)
    (response : Response) (it : list A) : Result (Response * list A) :=
  page ← int_param "page" 1 (query request);
  let page := Z.max 1 page in
  per ← int_param "perpage" 2 (query request);
  let per := Z.min 500 (Z.max 1 per) in
  let start := (page - 1) * per in
  let stop := start + per in
  let response := add_link_headers request response page per in
  items ← islice it start stop;
  ret (response, items).

(** ** Feature collections, the store and labels *)

Abbreviation FeatureCollection := (gmap string PyObj) (only parsing).
Abbreviation Store := (gmap string (gmap string PyObj)) (only parsing).

(** [store.get(cid)]: the collection, or [None]. *)
Definition store_get (store : Store) (cid : string) : PyObj :=
  match store !! cid with
  | Some fc => PyFC fc
  | None => PyNone
  end.

(** [store.scan_ids()]. *)
Definition scan_ids (store : Store) : list string :=
  (map_to_list store).*1.

(** [isinstance(feat, (unicode, StringCounter))]. *)
Definition is_json_feature (feat : PyObj) : bool :=
  match feat with
  | PyUnicode _ | PyStringCounter _ => true
  | _ => false
  end.

(** [fc_to_json(fc)]: the features that are strings or string counters.
    The values of a counter are numbers, so none of them is kept.  An
    object without [iteritems] raises [AttributeError]. *)
Definition fc_to_json (fc : PyObj) : Result (gmap string PyObj) :=
  match fc with
  | PyFC d | PyDict d => ret (filter (λ kv, is_json_feature kv.2) d)
  | PyStringCounter _ => ret ∅
  | _ => raise AttributeError
  end.

Inductive CorefValue : Type := Negative | Unknown | Positive.

Definition coref_int (v : CorefValue) : Z :=
  match v with
  | Negative => -1
  | Unknown => 0
  | Positive => 1
  end.

(** [dossier.label.Label], with the fields [v1_label_put] fills. *)
Record Label : Type := MkLabel {
  content_id1 : string;
  content_id2 : string;
  annotator_id : string;
  value : CorefValue;
  subtopic_id1 : option string;
  subtopic_id2 : option string
}.

(** The label store, as the routes and the filters use it. *)
Record LabelStore : Type := MkLabelStore {
  directly_connected : string → list Label;
  connected_component : string → list Label;
  expand : string → list Label;
  negative_inference : string → list Label
}.

Definition py_opt_str (o : option string) : PyObj :=
  from_option PyStr PyNone o.

(** [label_to_json(lab)]. *)
Definition label_to_json (lab : Label) : gmap string PyObj :=
  let d : gmap string PyObj :=
    list_to_map
      [("content_id1"%string, PyStr (content_id1 lab));
       ("content_id2"%string, PyStr (content_id2 lab));
       ("annotator_id"%string, PyStr (annotator_id lab));
       ("subtopic_id1"%string, py_opt_str (subtopic_id1 lab));
       ("subtopic_id2"%string, py_opt_str (subtopic_id2 lab))] in
  <["value"%string := PyInt (coref_int (value lab))]> d.

(** The three paginated label endpoints. *)
Definition v1_label_direct `{Urllib} `{Sys} (request : Request)
    (response : Response) (label_store : LabelStore) (cid : string)
  : Result (Response * list (gmap string PyObj)) :=
  let labs := label_to_json <$> directly_connected label_store cid in
  paginate request response labs.

Definition v1_label_positive `{Urllib} `{Sys} (request : Request)
    (response : Response) (label_store : LabelStore) (cid : string)
  : Result (Response * list (gmap string PyObj)) :=
  let name := default "connected"%string (Query.get "method" (query request)) in
  method ←
    (if bool_decide (name = "connected"%string)
     then ret (connected_component label_store)
     else if bool_decide (name = "expanded"%string)
     then ret (expand label_store)
     else raise (KeyError name));
  let labs := label_to_json <$> method cid in
  paginate request response labs.

Definition v1_label_negative `{Urllib} `{Sys} (request : Request)
    (response : Response) (label_store : LabelStore) (cid : string)
  : Result (Response * list (gmap string PyObj)) :=
  let labs := label_to_json <$> negative_inference label_store cid in
  paginate request response labs.

(** ** The reservoir sampler *)

(** Modelled from the spec: [dossier.web.search_engines.streaming_sample] is
    imported by [routes.py] but is not among the sources.  The spec's
    section 4.4 gives it: the first [k] items are kept; the item at index
    [i ≥ k] replaces a uniformly drawn slot of the reservoir with probability
    [k/(i+1)]; reading stops once [limit] items were read.  The draws are an
    argument: [rand i] is the number drawn for the item at index [i], and the
    slot is [rand i mod (i+1)], which is a slot of the reservoir exactly when
    it is below [k]. *)
Fixpoint sample_from {A} (rand : nat → nat) (k i : nat)
    (reservoir : list A) (seq : list A) : list A :=
  match seq with
  | [] => reservoir
  | x :: seq' =>
      if bool_decide (i < k)%nat
      then sample_from rand k (S i) (reservoir ++ [x]) seq'
      else
        let j := (rand i mod (S i))%nat in
        let reservoir' :=
          if bool_decide (j < k)%nat then <[j := x]> reservoir else reservoir in
        sample_from rand k (S i) reservoir' seq'
  end.

(** Modelled from the spec: [streaming_sample(seq, k, limit)], the entry
    of the sampler above; without a limit the whole stream is read. *)
Definition streaming_sample {A} (rand : nat → nat) (seq : list A)
    (k : nat) (limit : option nat) : list A :=
  let read := from_option (λ n, take n seq) seq limit in
  sample_from rand k 0 [] read.

(** ** Feature collection endpoints *)

(** [v1_fc_get(store, cid)]. *)
Definition v1_fc_get (store : Store) (cid : string)
  : Result (gmap string PyObj) :=
  match store_get store cid with
  | PyNone => raise (HTTPError 404)
  | fc => fc_to_json fc
  end.

(** [v1_random_fc_get(response, store)]: the content id and the collection
    of the JSON array it returns. *)
Definition v1_random_fc_get (rand : nat → nat) (store : Store)
  : Result (string * gmap string PyObj) :=
  let sample := streaming_sample rand (scan_ids store) 1 (Some 1000%nat) in
  match sample with
  | [] => raise (HTTPError 404)
  | cid :: _ =>
      fc ← fc_to_json (store_get store cid);
      ret (cid, fc)
  end.

(** ** Filter predicates

    A filter predicate is a closure: it is called once per candidate, in
    stream order, and may keep state between the calls.  The state is a
    component of the closure, and a call returns the closure to use next. *)

(** A candidate: a content id and its feature collection. *)
Definition Cand : Type := string * gmap string PyObj.

#[universes(polymorphic, cumulative)]
Record Closure : Type := MkClosure {
  cstate : Type;
  ccur : cstate;
  ccall : cstate → Cand → bool * cstate
}.

(** The universe of the predicates a registry holds, and above it the one
    of the predicate an engine is handed, whose state is a list of them. *)
Universes pred_u filter_u.
Constraint pred_u < filter_u.

Abbreviation Pred := Closure@{pred_u}.
Abbreviation FilterPred := Closure@{filter_u}.

#[universes(polymorphic)]
Definition call (p : Closure) (c : Cand) : bool * Closure :=
  let '(b, s) := ccall p (ccur p) c in
  (b, MkClosure (cstate p) s (ccall p)).

(** The answer of the next call, and the closure after it. *)
#[universes(polymorphic)]
Definition admits (p : Closure) (c : Cand) : bool := (call p c).1.

#[universes(polymorphic)]
Definition after (p : Closure) (c : Cand) : Closure := (call p c).2.

(** The answers over a stream of candidates, and the closure at its end. *)
#[universes(polymorphic)]
Fixpoint decisions (p : Closure) (l : list Cand) : list bool :=
  match l with
  | [] => []
  | c :: l' => admits p c :: decisions (after p c) l'
  end.

#[universes(polymorphic)]
Fixpoint after_all (p : Closure) (l : list Cand) : Closure :=
  match l with
  | [] => p
  | c :: l' => after_all (after p c) l'
  end.

(** Python's [filter(pred, l)] on a list. *)
#[universes(polymorphic)]
Fixpoint py_filter (p : Closure) (l : list Cand) : list Cand :=
  match l with
  | [] => []
  | c :: l' =>
      let '(b, p') := call p c in
      if b then c :: py_filter p' l' else py_filter p' l'
  end.

(** [all(p((cid, fc)) for p in preds)]: the predicates are called in order
    and the first that rejects ends the iteration; the ones after it are not
    called. *)
#[universes(polymorphic)]
Fixpoint py_all (preds : list Closure) (c : Cand) : bool * list Closure :=
  match preds with
  | [] => (true, [])
  | p :: preds' =>
      let '(b, p') := call p c in
      if b then
        let '(b', preds'') := py_all preds' c in (b', p' :: preds'')
      else (false, p' :: preds')
  end.

(** The two closures [v1_search] builds: [lambda _: True] and the
    conjunction over [preds]. *)
#[universes(polymorphic)]
Definition lambda_true : Closure := MkClosure unit () (λ _ _, (true, ())).

#[universes(polymorphic)]
Definition lambda_all (preds : list Closure) : Closure :=
  MkClosure (list Closure) preds py_all.

(** The predicates of a conjunction after a stream, each said on its own:
    a predicate has been called on the candidates that the predicates before
    it admitted, in stream order, and on no other.  This is what the
    conjunction is compared with; the route does not compute it. *)
#[universes(polymorphic)]
Fixpoint advance (preds : list Closure) (l : list Cand) : list Closure :=
  match preds with
  | [] => []
  | p :: preds' => after_all p l :: advance preds' (py_filter p l)
  end.

(** *** The filters of [dossier.web.filters] *)

(** Modelled from the spec: part of [already_labeled] below.  Whether a
    label joins the two content ids. *)
Definition label_joins (a b : string) (lab : Label) : bool :=
  bool_decide ((content_id1 lab = a ∧ content_id2 lab = b)
               ∨ (content_id1 lab = b ∧ content_id2 lab = a)).

(** Modelled from the spec: [dossier.web.filters.already_labeled] is imported
    by the package but is not among the sources.  The spec's section 4.1 and
    the docstring of [v1_search] give it: it rejects any candidate already
    connected to the query content id by a label. *)
Definition already_labeled (label_store : LabelStore) (query_id : string)
  : Pred :=
  MkClosure unit ()
    (λ _ c,
       (negb (existsb (label_joins query_id c.1)
                (directly_connected label_store query_id)), ())).

(** The Nilsimsa library: the digest of a text as hexadecimal digits and the
    score of two digests.  Both are outside the repository. *)
Class Nilsimsa : Type := {
  hexdigest : string → string;
  compare_digests : string → string → Z
}.

(** Modelled from the spec: part of the near-duplicate filter, which is not
    among the sources (section 4.2).  The fingerprints a feature collection
    holds under a feature name: the strings of the counter stored there,
    none when there is no counter. *)
Definition fingerprints (name : string) (fc : gmap string PyObj)
  : gset string :=
  match fc !! name with
  | Some (PyStringCounter c) => dom c
  | _ => ∅
  end.

(** Modelled from the spec: the state of the near-duplicate filter of
    section 4.2, which is not among the sources: the fingerprints seen so
    far, [None] when the query has none and everything is admitted, and the
    exclusion set seeded from the label store. *)
Record NilsimsaState : Type := MkNilsimsaState {
  seen : option (gset string);
  excluded : gset string
}.

(** Modelled from the spec: the comparison of section 4.2.  Whether a
    fingerprint of [fp] scores at least [threshold] against one of [acc]. *)
Definition near_duplicate `{Nilsimsa} (threshold : Z) (acc fp : gset string)
  : bool :=
  bool_decide
    (set_Exists
       (λ h1, set_Exists (λ h2, threshold ≤ compare_digests h1 h2) fp) acc).

(** Modelled from the spec: [dossier.web.filters.nilsimsa_near_duplicates]
    is imported by the package and by the tests but is not among the
    sources.  The spec's section 4.2 gives the decision on a candidate: its
    fingerprints are read under the reserved feature name; none, and it is
    admitted; a pair (seen fingerprint, candidate fingerprint) that scores
    at least the threshold, and it is rejected and the state is left as it
    was; otherwise it is admitted and its fingerprints join the seen ones.
    A query without fingerprints admits everything. *)
Definition accumulating_predicate `{Nilsimsa} (name : string) (threshold : Z)
    (st : NilsimsaState) (c : Cand) : bool * NilsimsaState :=
  match seen st with
  | None => (true, st)
  | Some acc =>
      let fp := fingerprints name c.2 in
      if bool_decide (fp = ∅) then (true, st)
      else if near_duplicate threshold acc fp then (false, st)
      else (true, MkNilsimsaState (Some (acc ∪ fp)) (excluded st))
  end.

(** Modelled from the spec: the predicate above as a closure over its
    state. *)
Definition accumulating_closure `{Nilsimsa} (name : string) (threshold : Z)
    (st : NilsimsaState) : Pred :=
  MkClosure NilsimsaState st (accumulating_predicate name threshold).

(** Modelled from the spec: part of [init_filter] below.  The content id a
    label gives besides the query. *)
Definition other_end (query_id : string) (lab : Label) : string :=
  if bool_decide (content_id1 lab = query_id)
  then content_id2 lab else content_id1 lab.

(** Modelled from the spec: the initialisation of section 4.2.  The query's
    collection is fetched from the store and its fingerprints read; the
    content ids the label store gives as coreferent with the query or as
    negatives of it seed the exclusion set.  The spec gives the exclusion
    set no part in the decision on a candidate, and the decision above has
    none.  A query that is not in the store has no fingerprints. *)
Definition init_filter `{Nilsimsa} (label_store : LabelStore) (store : Store)
    (name : string) (threshold : Z) (query_id : string) : Pred :=
  let fp := from_option (fingerprints name) ∅ (store !! query_id) in
  let excl :=
    list_to_set
      (other_end query_id <$>
         (connected_component label_store query_id
            ++ negative_inference label_store query_id)) in
  accumulating_closure name threshold
    (MkNilsimsaState (if bool_decide (fp = ∅) then None else Some fp) excl).

(** Modelled from the spec: the reserved feature name of section 4.2, with
    the value [make_fc] of the tests stores the digest under. *)
Definition nilsimsa_feature_name : string := "#nilsimsa_all".

(** Modelled from the spec: [nilsimsa_near_duplicates(label_store, store,
    threshold=...)] as the tests call it; what it returns is called with the
    query content id. *)
Definition nilsimsa_near_duplicates `{Nilsimsa} (label_store : LabelStore)
    (store : Store) (threshold : Z) : string → Pred :=
  init_filter label_store store nilsimsa_feature_name threshold.

(** ** The search route *)

(** What [config.create] injects into a configurable. *)
Record Config : Type := MkConfig {
  cfg_store : Store;
  cfg_label_store : LabelStore
}.

(** [config.create(p)]: the configurable [p] with its services filled in. *)
Definition create {A} (config : Config) (p : Config → A) : A := p config.

(** The dictionary a search engine returns, and the one the route returns:
    the list under ['results'] and the other keys. *)
Record SearchResults (T : Type) : Type := MkSearchResults {
  results : list T;
  others : gmap string PyObj
}.
Arguments MkSearchResults {T} _ _.
Arguments results {T} _.
Arguments others {T} _.

(** A search engine, once created: called with the query content id, the
    query parameters left over, the filter predicate and the limit, it
    returns result tuples; a tuple is the list of its elements.  With the
    tuples comes the heap of the dictionaries they refer to: an engine that
    puts one info dictionary in several tuples returns them with the same
    [PyRef]. *)
Definition Engine : Type :=
  string → gmap string string → FilterPred → Z →
  gmap nat (gmap string PyObj) * SearchResults (list PyObj).

(** What the route does to its collaborators, in order. *)
Inductive Event : Type :=
  | CreatedEngine
  | CreatedFilter (query_id : string)
  | Searched (query_id : string) (limit : Z).

(** The object an object stands for: the dictionary of the heap for a
    reference, the object itself otherwise. *)
Definition deref (heap : gmap nat (gmap string PyObj)) (o : PyObj) : PyObj :=
  match o with
  | PyRef a => from_option PyDict PyNone (heap !! a)
  | _ => o
  end.

(** [result[key] = val] on the object [result]: a dictionary or a feature
    collection takes the item, and a dictionary of the heap takes it in
    place, for every tuple that refers to it; the other objects raise.  (A
    counter would take it too, as one more count; a counter with such an
    item is not a [PyStringCounter], and a counter is taken with the objects
    that raise.) *)
Definition setitem (heap : gmap nat (gmap string PyObj)) (result : PyObj)
    (key : string) (val : PyObj)
  : Result (gmap nat (gmap string PyObj) * PyObj) :=
  match result with
  | PyDict d => ret (heap, PyDict (<[key := val]> d))
  | PyFC d => ret (heap, PyFC (<[key := val]> d))
  | PyRef a =>
      match heap !! a with
      | Some d => ret (<[a := <[key := val]> d]> heap, PyRef a)
      | None => raise TypeError
      end
  | _ => raise TypeError
  end.

(** The body of the loop over [results['results']]: one result tuple [t]
    becomes one object of the response, and the heap is what the
    assignments leave.  A tuple of one element reaches [bottle.abort(500)];
    for the empty tuple and a tuple of four elements or more the message of
    the abort cannot be formatted, ['...%r' % t] raises [TypeError], and the
    abort is not reached. *)
Definition transform (omit_fc : bool) (heap : gmap nat (gmap string PyObj))
    (t : list PyObj) : Result (gmap nat (gmap string PyObj) * PyObj) :=
  '(cid, fc, info) ←
    match t with
    | [cid; fc] => ret (cid, fc, PyDict ∅)
    | [cid; fc; info] => ret (cid, fc, info)
    | [_] => raise (HTTPError 500)
    | _ => raise TypeError
    end;
  let result := info in
  '(heap, result) ← setitem heap result "content_id" cid;
  if omit_fc then ret (heap, result)
  else
    fcj ← fc_to_json (deref heap fc);
    setitem heap result "fc" (PyDict fcj).

(** The loop: every tuple is transformed, in order, on the heap the tuples
    before it left, and the first that raises ends the request. *)
Fixpoint transform_all (omit_fc : bool) (heap : gmap nat (gmap string PyObj))
    (ts : list (list PyObj))
  : Result (gmap nat (gmap string PyObj) * list PyObj) :=
  match ts with
  | [] => ret (heap, [])
  | t :: ts' =>
      '(heap, r) ← transform omit_fc heap t;
      '(heap, rs) ← transform_all omit_fc heap ts';
      ret (heap, r :: rs)
  end.

(** The loop and the return.  The response is given as it is serialised:
    an object of the list is shown in the state the whole loop left it
    in. *)
Definition respond (omit_fc : bool)
    (found : gmap nat (gmap string PyObj) * SearchResults (list PyObj))
  : Result (SearchResults PyObj) :=
  '(heap, transformed) ← transform_all omit_fc found.1 (results found.2);
  ret (MkSearchResults (deref heap <$> transformed) (others found.2)).

(** [filter_names]: the filters the request names, or the default one. *)
Definition filter_names_of (q : Query.t) : list string :=
  match Query.getall "filter" q with
  | [] => ["already_labeled"%string]
  | names => names
  end.

(** [v1_search(request, config, search_engines, filter_preds, cid,
    engine_name)]: the events it causes and what it returns or raises. *)
Definition v1_search (request : Request) (config : Config)
    (search_engines : gmap string (Config → Engine))
    (filter_preds : gmap string (Config → string → Pred))
    (cid engine_name : string)
  : list Event * Result (SearchResults PyObj) :=
  let '(omit, q) := Query.pop "omit_fc" (Some "0"%string) (query request) in
  let omit_fc := bool_decide (omit = Some "1"%string) in
  match (search_engines !! engine_name : option (Config → Engine)) with
  | None => ([], raise (HTTPError 404))
  | Some search_engine =>
      let filter_names := filter_names_of q in
      let q := Query.remove "filter" q in
      match mapM (M := option) (λ n : string, filter_preds !! n) filter_names with
      | None => ([], raise (HTTPError 404))
      | Some init_filter_preds =>
          let search_engine := create config search_engine in
          let filter_pred :=
            if bool_decide (0 < length init_filter_preds)%nat then
              let preds := (λ p, create config p cid) <$> init_filter_preds in
              lambda_all preds
            else lambda_true in
          let kwargs :=
            delete "limit"%string
              (delete "filter_pred"%string (Query.to_dict q)) in
          let limit := str_to_max_int (Query.get "limit" q) 100 in
          let found := search_engine cid kwargs filter_pred limit in
          (CreatedEngine :: ((λ _, CreatedFilter cid) <$> init_filter_preds)
             ++ [Searched cid limit],
           respond omit_fc found)
      end
  end.

(** ** [tests/test_filter_preds.py] *)

Definition near_duplicate_texts : list string :=
  ["The quick brown fox jumps over the lazy dog.";
   "The quick brown fox jumps over the lazy dogs.";
   "The quick brown foxes jumped over the lazy dog.";
   "The quick brown foxes jumped over the lazy dogs."]%string.

(** [make_fc(text)]: a collection whose only feature is the counter of the
    text's digest. *)
Definition make_fc `{Nilsimsa} (text : string) : gmap string PyObj :=
  {[ "#nilsimsa_all"%string := PyStringCounter {[+ hexdigest text +]} ]}.

(** [[(str(idx), make_fc(text)) for idx, text in enumerate(texts)]]. *)
Definition enumerate_fcs `{Nilsimsa} (texts : list string) : list Cand :=
  imap (λ idx text, (py_str (Z.of_nat idx), make_fc text)) texts.

(** The body the two tests share: the first collection is the query and is
    put in the store, the filter is made for it, and what is left is
    filtered.  It returns [len(results)]. *)
Definition run_filter_test `{Nilsimsa} (label_store : LabelStore)
    (store : Store) (threshold : Z) (fcs : list Cand) : nat :=
  match fcs with
  | [] => 0%nat
  | (query_content_id, query_fc) :: fcs =>
      let store := <[query_content_id := query_fc]> store in
      let init_filter :=
        nilsimsa_near_duplicates label_store store threshold in
      let accumulating_predicate := init_filter query_content_id in
      length (py_filter accumulating_predicate fcs)
  end.

(** [test_nilsimsa_near_duplicates_basic]: the number the test asserts to
    be zero. *)
Definition test_nilsimsa_near_duplicates_basic `{Nilsimsa}
    (label_store : LabelStore) (store : Store) : nat :=
  run_filter_test label_store store 0 (enumerate_fcs near_duplicate_texts).

(** [test_nilsimsa_near_duplicates_update_logic]: the number the test
    asserts to be three. *)
Definition test_nilsimsa_near_duplicates_update_logic `{Nilsimsa}
    (label_store : LabelStore) (store : Store) : nat :=
  run_filter_test label_store store 120
    (enumerate_fcs (concat (replicate 1000 near_duplicate_texts))).

(** ** The Nilsimsa package

    The digest and the score of the [nilsimsa] package that the tests
    import.  The package is outside the repository: the properties of the
    filter hold for every instance of [Nilsimsa], and this one serves where
    an example needs the digest of a text. *)

(** The table [TRAN] of the package. *)
Definition TRAN : list Z :=
  [2; 214; 158; 111; 249; 29; 4; 171; 208; 34; 22; 31;
   216; 115; 161; 172; 59; 112; 98; 150; 30; 110; 143; 57;
   157; 5; 20; 74; 166; 190; 174; 14; 207; 185; 156; 154;
   199; 104; 19; 225; 45; 164; 235; 81; 141; 100; 107; 80;
   35; 128; 3; 65; 236; 187; 113; 204; 122; 134; 127; 152;
   242; 54; 94; 238; 142; 206; 79; 184; 50; 182; 95; 89;
   220; 27; 49; 76; 123; 240; 99; 1; 108; 186; 7; 232;
   18; 119; 73; 60; 218; 70; 254; 47; 121; 28; 155; 48;
   227; 0; 6; 126; 46; 15; 56; 51; 33; 173; 165; 84;
   202; 167; 41; 252; 90; 71; 105; 125; 197; 149; 181; 244;
   11; 144; 163; 129; 109; 37; 85; 53; 245; 117; 116; 10;
   38; 191; 25; 92; 26; 198; 255; 153; 93; 132; 170; 102;
   62; 175; 120; 179; 32; 67; 193; 237; 36; 234; 230; 63;
   24; 243; 160; 66; 87; 8; 83; 96; 195; 192; 131; 64;
   130; 215; 9; 189; 68; 42; 103; 168; 147; 224; 194; 86;
   159; 217; 221; 133; 21; 180; 138; 39; 40; 146; 118; 222;
   239; 248; 178; 183; 201; 61; 69; 148; 75; 17; 13; 101;
   213; 52; 139; 145; 12; 250; 135; 233; 124; 91; 177; 77;
   229; 212; 203; 16; 162; 23; 137; 188; 219; 176; 226; 151;
   136; 82; 247; 72; 211; 97; 44; 58; 43; 209; 140; 251;
   241; 205; 228; 106; 231; 169; 253; 196; 55; 200; 210; 246;
   223; 88; 114; 78].

Definition tran (i : Z) : Z := default 0 (TRAN !! Z.to_nat i).

(** [tran_hash(a, b, c, n)]. *)
Definition tran_hash (a b c n : Z) : Z :=
  Z.land
    (Z.lxor (tran (Z.land (a + n) 255)) (tran b * (n + n + 1))
     + tran (Z.lxor c (tran n)))
    255.

(** The state of a [Nilsimsa] object: the characters read, the 256
    counters and the window of the last four characters, newest first. *)
Record NilsimsaAcc : Type := MkNilsimsaAcc {
  num_char : Z;
  acc : list Z;
  window : list Z
}.

(** [self.acc[i] += 1]. *)
Definition bump (i : Z) (acc : list Z) : list Z :=
  alter Z.succ (Z.to_nat i) acc.

(** The body of the loop of [process]: one character is read. *)
Definition process_char (st : NilsimsaAcc) (c : Z) : NilsimsaAcc :=
  let w := window st in
  let acc := acc st in
  let acc :=
    match w with
    | w0 :: w1 :: _ => bump (tran_hash c w0 w1 0) acc
    | _ => acc
    end in
  let acc :=
    match w with
    | w0 :: w1 :: w2 :: _ =>
        bump (tran_hash c w1 w2 2) (bump (tran_hash c w0 w2 1) acc)
    | _ => acc
    end in
  let acc :=
    match w with
    | w0 :: w1 :: w2 :: w3 :: _ =>
        bump (tran_hash w3 w2 c 7)
          (bump (tran_hash w3 w0 c 6)
             (bump (tran_hash c w2 w3 5)
                (bump (tran_hash c w1 w3 4)
                   (bump (tran_hash c w0 w3 3) acc))))
    | _ => acc
    end in
  let window :=
    if bool_decide (length w < 4)%nat then c :: w else c :: take 3 w in
  MkNilsimsaAcc (num_char st + 1) acc window.

Definition process (text : string) : NilsimsaAcc :=
  foldl process_char (MkNilsimsaAcc 0 (replicate 256 0) [])
    ((λ ch, Z.of_nat (nat_of_ascii ch)) <$> String.list_ascii_of_string text).

(** [compute_digest]: bit [i] is set when counter [i] is above the number
    of trigrams divided by 256; the 32 bytes are kept last byte first. *)
Definition compute_digest (st : NilsimsaAcc) : list Z :=
  let n := num_char st in
  let num_trigrams :=
    if bool_decide (n = 3) then 1
    else if bool_decide (n = 4) then 4
    else if bool_decide (4 < n) then 8 * n - 28
    else 0 in
  let bit (i : nat) : Z :=
    if bool_decide (num_trigrams < 256 * default 0 (acc st !! i))
    then 1 else 0 in
  let byte (b : nat) : Z :=
    foldr (λ k s, s + Z.shiftl (bit (8 * b + k)%nat) (Z.of_nat k)) 0 (seq 0 8) in
  reverse (byte <$> seq 0 32).

Definition hex_digit (n : Z) : string :=
  default "0"%string
    (["0"; "1"; "2"; "3"; "4"; "5"; "6"; "7"; "8"; "9";
      "a"; "b"; "c"; "d"; "e"; "f"]%string !! Z.to_nat n).

(** ['%02x' % b]. *)
Definition hex_byte (b : Z) : string :=
  hex_digit (b / 16) +:+ hex_digit (b mod 16).

(** [Nilsimsa(text).hexdigest()]. *)
Definition nilsimsa_hexdigest (text : string) : string :=
  foldr (λ b s, hex_byte b +:+ s) ""%string (compute_digest (process text)).

(** The value of a hexadecimal digit, 0 for another character. *)
Definition hex_val (c : ascii) : Z :=
  let n := Z.of_nat (nat_of_ascii c) in
  if bool_decide (48 ≤ n ≤ 57) then n - 48
  else if bool_decide (97 ≤ n ≤ 102) then n - 87
  else if bool_decide (65 ≤ n ≤ 70) then n - 55
  else 0.

(** The bytes of a digest of hexadecimal digits, two digits a byte. *)
Fixpoint hex_bytes (s : list ascii) : list Z :=
  match s with
  | hi :: lo :: s' => (16 * hex_val hi + hex_val lo) :: hex_bytes s'
  | _ => []
  end.

(** [POPC[b]]: the bits set in a byte. *)
Definition popc (b : Z) : Z :=
  foldr (λ k s, s + (if Z.testbit b (Z.of_nat k) then 1 else 0)) 0 (seq 0 8).

(** [compare_digests(digest_1, digest_2)] on two digests of 64 hexadecimal
    digits: 128 less the bits in which they differ. *)
Definition nilsimsa_compare_digests (digest_1 digest_2 : string) : Z :=
  let b1 := take 32 (hex_bytes (String.list_ascii_of_string digest_1)) in
  let b2 := take 32 (hex_bytes (String.list_ascii_of_string digest_2)) in
  128 - foldr Z.add 0 (zip_with (λ x y, popc (Z.lxor (Z.land 255 x) y)) b1 b2).

Definition nilsimsa_package : Nilsimsa :=
  {| hexdigest := nilsimsa_hexdigest;
     compare_digests := nilsimsa_compare_digests |}.

(** ** Pagination as the specification words it

    The page the specification describes, for comparison with [paginate]:
    the page size is the [perpage] parameter clamped to at most 500, and
    page [p] holds the items at the indices from [(p-1)*per] up to
    [p*per], the latter excluded. *)
Definition claimed_per (perpage : Z) : Z := Z.min 500 perpage.

Definition claimed_page {A} (p perpage : Z) (it : list A) : list A :=
  let per := claimed_per perpage in
  take (Z.to_nat (p * per - (p - 1) * per)) (drop (Z.to_nat ((p - 1) * per)) it).

(** ** Sample data

    A small installation on which the routes are run in the examples: a
    store of three collections, one label, an engine that returns what it
    is configured with, and the two registries. *)

#[local] Instance ex_urllib : Urllib := {|
  urlsplit u := MkSplit "http" "localhost" u "" "";
  urlunsplit u := scheme u +:+ "://" +:+ netloc u +:+ path u +:+ "?" +:+ qs u;
  parse_qs _ := ∅;
  urlencode m :=
    join "&" ((λ kv, kv.1 +:+ "=" +:+ join "," kv.2) <$> map_to_list m)
|}.

(** A stand-in for the digest: the text itself, two digests scoring 128 when
    they are equal and 0 otherwise. *)
#[local] Instance ex_nilsimsa : Nilsimsa := {|
  hexdigest text := text;
  compare_digests h1 h2 := if bool_decide (h1 = h2) then 128 else 0
|}.

Definition ex_fc (digest : string) : gmap string PyObj :=
  {[ "#nilsimsa_all"%string := PyStringCounter {[+ digest +]};
     "title"%string := PyUnicode digest;
     "raw"%string := PyStr digest ]}.

Definition ex_store : gmap string (gmap string PyObj) :=
  {[ "q"%string := ex_fc "aa"; "a"%string := ex_fc "bb";
     "b"%string := ex_fc "aa" ]}.

Definition ex_label : Label :=
  MkLabel "q" "a" "tester" Positive None None.

Definition ex_label_store : LabelStore :=
  let labs cid :=
    if bool_decide (cid = "q"%string ∨ cid = "a"%string)
    then [ex_label] else [] in
  MkLabelStore labs labs labs (λ _, []).

Definition ex_config : Config := MkConfig ex_store ex_label_store.

(** An engine that scans the store and keeps what the filter admits, up to
    the limit. *)
Definition ex_engine (config : Config) : Engine :=
  λ cid kwargs filter_pred limit,
    let cands := map_to_list (cfg_store config) in
    let kept := take (Z.to_nat limit) (py_filter filter_pred cands) in
    (∅, MkSearchResults ((λ c : Cand, [PyStr c.1; PyFC c.2]) <$> kept) ∅).

(** An engine whose second tuple has four elements. *)
Definition ex_bad_engine (config : Config) : Engine :=
  λ cid kwargs filter_pred limit,
    (∅,
     MkSearchResults
       [[PyStr "a"; PyFC ∅]; [PyStr "b"; PyFC ∅; PyDict ∅; PyNone]] ∅).

(** An engine whose second tuple has one element. *)
Definition ex_short_engine (config : Config) : Engine :=
  λ cid kwargs filter_pred limit,
    (∅, MkSearchResults [[PyStr "a"; PyFC ∅]; [PyStr "b"]] ∅).

(** An engine that puts one info dictionary in its first and third
    tuples. *)
Definition ex_sharing_engine (config : Config) : Engine :=
  λ cid kwargs filter_pred limit,
    ({[ 0%nat := {[ "score"%string := PyInt 7 ]} ]},
     MkSearchResults
       [[PyStr "a"; PyFC ∅; PyRef 0]; [PyStr "b"; PyFC ∅];
        [PyStr "c"; PyFC ∅; PyRef 0]] ∅).

Definition ex_search_engines : gmap string (Config → Engine) :=
  {[ "scan"%string := ex_engine; "bad"%string := ex_bad_engine;
     "short"%string := ex_short_engine;
     "sharing"%string := ex_sharing_engine ]}.

Definition ex_filter_preds : gmap string (Config → string → Pred) :=
  {[ "already_labeled"%string :=
       (λ config, already_labeled (cfg_label_store config));
     "nilsimsa_near_duplicates"%string :=
       (λ config,
          nilsimsa_near_duplicates (cfg_label_store config)
            (cfg_store config) 120) ]}.

Definition ex_response : Response := MkResponse 200 ∅.

(** A 64-bit platform. *)
#[local] Instance ex_sys : Sys := {| maxint := 2 ^ 63 - 1 |}.

Definition ex_label_request (q : list (string * string)) : Request :=
  MkRequest "/dossier/v1/label/q/direct" q.

Definition ex_request (q : list (string * string)) : Request :=
  MkRequest "/dossier/v1/feature-collection/q/search/scan" q.

(** ** The other endpoints of [routes.py] *)

(** The order of Python on byte strings: character by character. *)
Definition str_le (a b : string) : Prop := String.leb a b = true.

#[global] Instance str_le_dec : RelDecision str_le :=
  λ a b, decide (String.leb a b = true).

(** [v1_search_engines(search_engines)]: [sorted(search_engines.keys())]. *)
Definition v1_search_engines {E} (search_engines : gmap string E)
  : list string :=
  merge_sort str_le (map_to_list search_engines).*1.

(** [json.load] and [FeatureCollection.from_dict], which [v1_fc_put] calls
    on the body of the request.  Both are outside the repository and both
    may raise. *)
Class Codec : Type := {
  json_load : string → Result PyObj;
  from_dict : PyObj → Result (gmap string PyObj)
}.

(** [store.put(items)]: the pairs are stored in order, a later one over an
    earlier one of the same content id. *)
Definition store_put (store : Store) (items : list (string * gmap string PyObj))
  : gmap string (gmap string PyObj) :=
  foldl (λ st kv, <[kv.1 := kv.2]> st) store items.

(** [v1_fc_put(request, response, store, cid)], on the body of the request:
    the response with its status and the store after the put. *)
Definition v1_fc_put `{Codec} (body : string) (response : Response)
    (store : Store) (cid : string)
  : Result (Response * gmap string (gmap string PyObj)) :=
  d ← json_load body;
  fc ← from_dict d;
  let store := store_put store [(cid, fc)] in
  ret (MkResponse 201 (headers response), store).

(** [CorefValue(n)]: the three values of the docstring of [v1_label_put];
    another number raises [ValueError]. *)
Definition coref_value (n : Z) : Result CorefValue :=
  if bool_decide (n = -1) then ret Negative
  else if bool_decide (n = 0) then ret Unknown
  else if bool_decide (n = 1) then ret Positive
  else raise ValueError.

(** What [v1_label_put] does to the label store and to the hooks, in
    order; a hook is named by its configurable. *)
Inductive LabelEvent (H : Type) : Type :=
  | PutLabel (lab : Label)
  | CreatedHook (h : H)
  | CalledHook (h : H) (lab : Label).
Arguments PutLabel {H} _.
Arguments CreatedHook {H} _.
Arguments CalledHook {H} _ _.

(** [v1_label_put(request, response, config, label_hooks, label_store,
    cid1, cid2, annotator_id)], on the body of the request. *)
Definition v1_label_put {H} (body : string) (request : Request)
    (response : Response) (label_hooks : list H)
    (cid1 cid2 annotator_id : string)
  : list (LabelEvent H) * Result Response :=
  match py_int body with
  | None => ([], raise ValueError)
  | Some n =>
      match coref_value n with
      | inl e => ([], inl e)
      | inr coref =>
          let lab :=
            MkLabel cid1 cid2 annotator_id coref
              (Query.get "subtopic_id1" (query request))
              (Query.get "subtopic_id2" (query request)) in
          (PutLabel lab
             :: concat ((λ h, [CreatedHook h; CalledHook h lab])
                          <$> label_hooks),
           ret (MkResponse 201 (headers response)))
      end
  end.

(** [o[key]] for a dictionary or a feature collection that has the key. *)
Definition py_getitem (o : PyObj) (key : string) : option PyObj :=
  match o with
  | PyDict d | PyFC d => d !! key
  | _ => None
  end.

(** ** The helpers of [tests/test_filter_preds.py]

    A text is the list of its characters.  The draws of [random] are an
    argument: [rand k] is the number behind the [k]-th call of
    [random.choice], and the list [random.sample] returns is given. *)

Definition ascii_lowercase : list ascii :=
  String.list_ascii_of_string "abcdefghijklmnopqrstuvwxyz".
Definition ascii_uppercase : list ascii :=
  String.list_ascii_of_string "ABCDEFGHIJKLMNOPQRSTUVWXYZ".
Definition digits : list ascii :=
  String.list_ascii_of_string "0123456789".

(** [candidate_chars]: the letters and digits, and then one blank for every
    seven of them, the division being that of integers. *)
Definition candidate_chars : list ascii :=
  let chars := ascii_lowercase ++ ascii_uppercase ++ digits in
  chars ++ replicate (length chars / 7) " "%char.

(** [random.choice(seq)] with the draw [r]. *)
Definition choice (r : nat) (seq : list ascii) : ascii :=
  default " "%char (seq !! (r mod length seq)%nat).

(** [random_text(N)]. *)
Definition random_text (rand : nat → nat) (N : nat) : list ascii :=
  (λ k, choice (rand k) candidate_chars) <$> seq 0 N.

(** [text[a:b]] for indices that are not negative. *)
Definition py_slice (text : list ascii) (a b : nat) : list ascii :=
  take (b - a) (drop a text).

(** The loop of [mutate] and the piece appended after it: [prev] is where
    the text was left, [k] counts the calls of [random.choice]. *)
Fixpoint mutate_from (rand : nat → nat) (text : list ascii) (prev k : nat)
    (idxs : list nat) : list ascii :=
  match idxs with
  | [] => drop prev text
  | idx :: idxs' =>
      py_slice text prev idx
        ++ choice (rand k) candidate_chars
        :: mutate_from rand text (S idx) (S k) idxs'
  end.

(** [mutate(text, N)], where [sample] is what
    [random.sample(range(len(text)), N)] returned. *)
Definition mutate (rand : nat → nat) (text : list ascii)
    (sample : list nat) : list ascii :=
  mutate_from rand text 0 0 (merge_sort le sample).

(** ** More sample data *)

(** A decoder for the examples: a body is read as the dictionary
    [ex_fc body], the empty body is malformed, and a dictionary is its own
    feature collection. *)
Definition ex_codec : Codec :=
  {| json_load body :=
       if bool_decide (body = ""%string) then raise ValueError
       else ret (PyDict (ex_fc body));
     from_dict d :=
       match d with
       | PyDict m => ret m
       | _ => raise TypeError
       end |}.

(** * Properties *)

(** ** The query *)

Lemma getall_remove_ne (key key' : string) (q : Query.t) :
  key ≠ key' → Query.getall key (Query.remove key' q) = Query.getall key q.
Proof.
  intros Hne. unfold Query.getall, Query.remove. f_equal.
  induction q as [|[k v] q IH]; [done|].
  rewrite !filter_cons. simpl.
  destruct (decide (k = key)) as [->|Hk].
  - rewrite decide_True by done. rewrite filter_cons. simpl.
    rewrite decide_True by done. by rewrite IH.
  - destruct (decide (k ≠ key')); [|done].
    rewrite filter_cons. simpl. by rewrite decide_False.
Qed.

Lemma get_remove_ne (key key' : string) (q : Query.t) :
  key ≠ key' → Query.get key (Query.remove key' q) = Query.get key q.
Proof. intros. unfold Query.get. by rewrite getall_remove_ne. Qed.

Lemma getall_remove_eq (key : string) (q : Query.t) :
  Query.getall key (Query.remove key q) = [].
Proof.
  unfold Query.getall, Query.remove.
  induction q as [|[k v] q IH]; [done|].
  rewrite filter_cons. simpl. destruct (decide (k ≠ key)); [|done].
  rewrite filter_cons. simpl. by rewrite decide_False.
Qed.

Lemma getall_pop_omit_fc (q : Query.t) :
  Query.getall "filter" (Query.pop "omit_fc" (Some "0"%string) q).2
  = Query.getall "filter" q.
Proof. by apply getall_remove_ne. Qed.

Lemma get_limit_after_pops (q : Query.t) :
  Query.get "limit" (Query.remove "filter" (Query.remove "omit_fc" q))
  = Query.get "limit" q.
Proof. by rewrite !get_remove_ne. Qed.

Lemma filter_names_of_remove (q : Query.t) :
  filter_names_of (Query.remove "omit_fc" q) = filter_names_of q.
Proof. unfold filter_names_of. by rewrite getall_remove_ne. Qed.

Lemma filter_names_of_nonempty (q : Query.t) : filter_names_of q ≠ [].
Proof. unfold filter_names_of. by destruct (Query.getall "filter" q). Qed.

(** ** Exceptions in a loop *)

Lemma mapM_result_inl {A B} (f : A → Result B) (l : list A) (e : Exn) :
  mapM f l = inl e → ∃ x, x ∈ l ∧ f x = inl e.
Proof.
  induction l as [|x l IH]; simpl; [done|].
  destruct (f x) as [e'|y] eqn:Hx; simpl.
  - intros [= ->]. exists x. split; [left|done].
  - destruct (mapM f l) as [e'|k]; simpl; [|done].
    intros [= ->]. destruct IH as (x' & ? & ?); [done|].
    exists x'. split; [by right|done].
Qed.

Lemma mapM_result_fails {A B} (f : A → Result B) (l : list A) (x : A) :
  x ∈ l → (∃ e, f x = inl e) → ∃ e, mapM f l = inl e.
Proof.
  intros Hin [e He]. induction Hin as [x l|x y l Hin IH]; simpl.
  - rewrite He. by exists e.
  - destruct (f y) as [e1|z]; simpl.
    + by eexists.
    + destruct (IH He) as [e2 ->]. by eexists.
Qed.

(** ** The search route once the names are resolved *)

(** The flag, the parameters left over and the limit, as [v1_search]
    computes them from the request. *)
Lemma v1_search_resolved (request : Request) (config : Config)
    (search_engines : gmap string (Config → Engine))
    (filter_preds : gmap string (Config → string → Pred))
    (cid engine_name : string) (se : Config → Engine)
    (fs : list (Config → string → Pred)) :
  search_engines !! engine_name = Some se →
  mapM (M := option) (λ n : string, filter_preds !! n)
    (filter_names_of (query request)) = Some fs →
  let q := Query.remove "filter" (Query.remove "omit_fc" (query request)) in
  let omit_fc :=
    bool_decide (default "0"%string (Query.get "omit_fc" (query request))
                 = "1"%string) in
  let kwargs :=
    delete "limit"%string (delete "filter_pred"%string (Query.to_dict q)) in
  let limit := str_to_max_int (Query.get "limit" (query request)) 100 in
  let preds := (λ p : Config → string → Pred, p config cid) <$> fs in
  v1_search request config search_engines filter_preds cid engine_name
  = (CreatedEngine :: ((λ _, CreatedFilter cid) <$> fs)
       ++ [Searched cid limit],
     respond omit_fc (se config cid kwargs (lambda_all preds) limit)).
Proof.
  intros Hse Hfs. unfold v1_search, Query.pop. cbv beta iota zeta.
  rewrite Hse, filter_names_of_remove, Hfs, get_limit_after_pops.
  assert (fs ≠ []) as Hne.
  { intros ->. apply length_mapM in Hfs.
    pose proof (filter_names_of_nonempty (query request)).
    by destruct (filter_names_of (query request)). }
  rewrite (bool_decide_true (0 < length fs)%nat)
    by (destruct fs; [done|simpl; lia]).
  unfold create. do 3 f_equal.
  destruct (Query.get "omit_fc" (query request)); [|reflexivity].
  apply bool_decide_ext. simpl. split; congruence.
Qed.

(** ** The limit of a search *)

Lemma str_to_max_int_spec (s : option string) (maximum : Z) :
  str_to_max_int s maximum
  = match s ≫= py_int with
    | Some n => Z.min maximum n
    | None => maximum
    end.
Proof. destruct s as [s|]; [|done]. simpl. by destruct (py_int s). Qed.

(** C9.  Once the engine and the filters are found, the engine is called
    with a limit that is [min(100, int(limit))] when the [limit] parameter
    is an integer and 100 when it is absent or no integer; so a limit above
    100 becomes 100 and a negative limit is passed on as it is. *)
Theorem v1_search_limit (request : Request) (config : Config)
    (search_engines : gmap string (Config → Engine))
    (filter_preds : gmap string (Config → string → Pred))
    (cid engine_name : string) (se : Config → Engine)
    (fs : list (Config → string → Pred)) :
  search_engines !! engine_name = Some se →
  mapM (M := option) (λ n : string, filter_preds !! n)
    (filter_names_of (query request)) = Some fs →
  ∃ (omit_fc : bool) (kwargs : gmap string string)
    (filter_pred : FilterPred) (limit : Z),
    v1_search request config search_engines filter_preds cid engine_name
    = (CreatedEngine :: ((λ _, CreatedFilter cid) <$> fs)
         ++ [Searched cid limit],
       respond omit_fc (se config cid kwargs filter_pred limit))
    ∧ limit = match Query.get "limit" (query request) with
              | Some s =>
                  match py_int s with
                  | Some n => Z.min 100 n
                  | None => 100
                  end
              | None => 100
              end
    ∧ (∀ s n, Query.get "limit" (query request) = Some s →
              py_int s = Some n →
              (100 < n → limit = 100) ∧ (n < 0 → limit = n)).
Proof.
  intros Hse Hfs. do 4 eexists. split; [|split].
  - by apply v1_search_resolved.
  - unfold str_to_max_int. reflexivity.
  - intros s n Hs Hn. unfold str_to_max_int. rewrite Hs, Hn. lia.
Qed.

Lemma v1_search_limit_witness :
  ∃ (omit_fc : bool) (kwargs : gmap string string)
    (filter_pred : FilterPred) (limit : Z),
    v1_search (ex_request [("limit", "250")]%string) ex_config
      ex_search_engines ex_filter_preds "q" "scan"
    = (CreatedEngine
         :: ((λ _, CreatedFilter "q"%string) <$>
               [λ config, already_labeled (cfg_label_store config)])
         ++ [Searched "q" limit],
       respond omit_fc (ex_engine ex_config "q" kwargs filter_pred limit))
    ∧ limit = match Query.get "limit"
                      (query (ex_request [("limit", "250")]%string)) with
              | Some s =>
                  match py_int s with
                  | Some n => Z.min 100 n
                  | None => 100
                  end
              | None => 100
              end
    ∧ (∀ s n,
         Query.get "limit" (query (ex_request [("limit", "250")]%string))
         = Some s →
         py_int s = Some n →
         (100 < n → limit = 100) ∧ (n < 0 → limit = n)).
Proof.
  apply (v1_search_limit (ex_request [("limit", "250")]%string) ex_config
           ex_search_engines ex_filter_preds "q" "scan" ex_engine
           [λ config, already_labeled (cfg_label_store config)]);
    reflexivity.
Defined.

Example v1_search_limit_250 :
  (v1_search (ex_request [("limit", "250")]%string) ex_config
     ex_search_engines ex_filter_preds "q" "scan").1
  = [CreatedEngine; CreatedFilter "q"; Searched "q" 100].
Proof. reflexivity. Qed.

Example v1_search_limit_negative :
  (v1_search (ex_request [("limit", "-3")]%string) ex_config
     ex_search_engines ex_filter_preds "q" "scan").1
  = [CreatedEngine; CreatedFilter "q"; Searched "q" (-3)].
Proof. reflexivity. Qed.

Example v1_search_limit_absent :
  (v1_search (ex_request []) ex_config
     ex_search_engines ex_filter_preds "q" "scan").1
  = [CreatedEngine; CreatedFilter "q"; Searched "q" 100]
  ∧ (v1_search (ex_request [("limit", "ten")]%string) ex_config
       ex_search_engines ex_filter_preds "q" "scan").1
    = [CreatedEngine; CreatedFilter "q"; Searched "q" 100].
Proof. split; reflexivity. Qed.

(** ** Unknown names *)

(** C5.  When the engine name is not in the engine registry, or a filter the
    request names is not in the filter registry, the request raises the
    error of [bottle.abort(404)], the client sees status 404, and nothing
    was created or searched. *)
Theorem v1_search_not_found (request : Request) (config : Config)
    (search_engines : gmap string (Config → Engine))
    (filter_preds : gmap string (Config → string → Pred))
    (cid engine_name : string) :
  search_engines !! engine_name = None
  ∨ (∃ n, n ∈ Query.getall "filter" (query request)
          ∧ filter_preds !! n = None) →
  v1_search request config search_engines filter_preds cid engine_name
  = ([], raise (HTTPError 404))
  ∧ http_status 200
      (v1_search request config search_engines filter_preds cid
         engine_name).2 = 404
  ∧ ∀ query_id limit,
      Searched query_id limit
      ∉ (v1_search request config search_engines filter_preds cid
           engine_name).1.
Proof.
  intros Hnot.
  assert (v1_search request config search_engines filter_preds cid engine_name
          = ([], raise (HTTPError 404))) as ->.
  { unfold v1_search, Query.pop. cbv beta iota zeta.
    destruct (search_engines !! engine_name) as [se|] eqn:Hse; [|done].
    destruct Hnot as [?|(n & Hin & Hn)]; [done|].
    rewrite filter_names_of_remove.
    rewrite (proj2 (mapM_None _ _)); [done|].
    apply Exists_exists. exists n. split; [|done].
    unfold filter_names_of.
    destruct (Query.getall "filter" (query request)); [|done].
    by apply elem_of_nil in Hin. }
  split; [done|]. split; [done|].
  intros query_id limit Hin. by apply elem_of_nil in Hin.
Qed.

Lemma v1_search_not_found_witness :
  v1_search (ex_request [("filter", "already_labeled"); ("filter", "nope")]%string)
    ex_config ex_search_engines ex_filter_preds "q" "scan"
  = ([], raise (HTTPError 404))
  ∧ http_status 200
      (v1_search
         (ex_request [("filter", "already_labeled"); ("filter", "nope")]%string)
         ex_config ex_search_engines ex_filter_preds "q" "scan").2 = 404
  ∧ ∀ query_id limit,
      Searched query_id limit
      ∉ (v1_search
           (ex_request [("filter", "already_labeled"); ("filter", "nope")]%string)
           ex_config ex_search_engines ex_filter_preds "q" "scan").1.
Proof.
  apply (v1_search_not_found
           (ex_request [("filter", "already_labeled"); ("filter", "nope")]%string)
           ex_config ex_search_engines ex_filter_preds "q" "scan").
  right. exists "nope"%string. split; [|reflexivity].
  right. left.
Defined.

Example v1_search_unknown_engine :
  v1_search (ex_request []) ex_config ex_search_engines ex_filter_preds
    "q" "bing"
  = ([], raise (HTTPError 404)).
Proof. reflexivity. Qed.

(** ** The shape of a result tuple *)

Lemma transform_one (omit_fc : bool) (heap : gmap nat (gmap string PyObj))
    (t : list PyObj) :
  length t = 1%nat → transform omit_fc heap t = raise (HTTPError 500).
Proof. intros Hl. destruct t as [|a [|b t]]; simpl in *; done. Qed.

Lemma transform_unformattable (omit_fc : bool)
    (heap : gmap nat (gmap string PyObj)) (t : list PyObj) :
  length t = 0%nat ∨ (4 ≤ length t)%nat →
  transform omit_fc heap t = raise TypeError.
Proof.
  intros Hl. destruct t as [|a [|b [|c [|d t]]]]; simpl in *; try done; lia.
Qed.

Lemma setitem_raises (heap : gmap nat (gmap string PyObj)) (o : PyObj)
    (key : string) (val : PyObj) (e : Exn) :
  setitem heap o key val = inl e → e = TypeError.
Proof.
  unfold setitem, raise, ret. destruct o; try (by intros [= <-]).
  destruct (heap !! a); by intros [= <-].
Qed.

Lemma fc_to_json_raises (o : PyObj) (e : Exn) :
  fc_to_json o = inl e → e = AttributeError.
Proof. unfold fc_to_json, raise, ret. destruct o; by intros [= <-]. Qed.

(** What a tuple of two or three elements can raise. *)
Lemma transform_raises_typed (omit_fc : bool)
    (heap : gmap nat (gmap string PyObj)) (cid fc info : PyObj) (e : Exn) :
  ('(heap1, result) ← setitem heap info "content_id" cid;
   if omit_fc then ret (heap1, result)
   else
     fcj ← fc_to_json (deref heap1 fc);
     setitem heap1 result "fc" (PyDict fcj)) = inl e →
  e = TypeError ∨ e = AttributeError.
Proof.
  destruct (setitem heap info "content_id" cid) as [e1|[heap' result]] eqn:H1;
    simpl.
  - intros [= <-]. left. by eapply setitem_raises.
  - destruct omit_fc; [done|].
    destruct (fc_to_json (deref heap' fc)) as [e2|fcj] eqn:H2; simpl.
    + intros [= <-]. right. by eapply fc_to_json_raises.
    + intros He. left. by eapply setitem_raises.
Qed.

Lemma transform_raises (omit_fc : bool) (heap : gmap nat (gmap string PyObj))
    (t : list PyObj) (e : Exn) :
  transform omit_fc heap t = inl e →
  e = HTTPError 500 ∨ e = TypeError ∨ e = AttributeError.
Proof.
  unfold transform.
  destruct t as [|a [|b [|c [|d t]]]].
  - simpl. intros [= <-]. auto.
  - simpl. intros [= <-]. auto.
  - intros He. right.
    exact (transform_raises_typed omit_fc heap a b (PyDict ∅) e He).
  - intros He. right.
    exact (transform_raises_typed omit_fc heap a b c e He).
  - simpl. intros [= <-]. auto.
Qed.

Lemma transform_good_length (omit_fc : bool)
    (heap : gmap nat (gmap string PyObj)) (t : list PyObj) :
  length t = 2%nat ∨ length t = 3%nat →
  transform omit_fc heap t ≠ raise (HTTPError 500).
Proof.
  unfold transform.
  destruct t as [|a [|b [|c [|d t]]]]; intros [?|?]; try done; intros He.
  - by destruct (transform_raises_typed omit_fc heap a b (PyDict ∅) _ He).
  - by destruct (transform_raises_typed omit_fc heap a b c _ He).
Qed.

Lemma transform_all_inl (omit_fc : bool) (ts : list (list PyObj))
    (heap : gmap nat (gmap string PyObj)) (e : Exn) :
  transform_all omit_fc heap ts = inl e →
  ∃ t heap', t ∈ ts ∧ transform omit_fc heap' t = inl e.
Proof.
  revert heap. induction ts as [|t ts IH]; intros heap; simpl; [done|].
  destruct (transform omit_fc heap t) as [e'|[heap1 r]] eqn:Ht; simpl.
  - intros [= ->]. exists t, heap. split; [left|done].
  - destruct (transform_all omit_fc heap1 ts) as [e'|[heap2 rs]] eqn:Hts;
      simpl; [|done].
    intros [= ->]. destruct (IH _ Hts) as (t' & heap' & Hin & Ht').
    exists t', heap'. split; [by right|done].
Qed.

Lemma transform_all_fails (omit_fc : bool) (ts : list (list PyObj))
    (heap : gmap nat (gmap string PyObj)) (t : list PyObj) :
  t ∈ ts → (∀ heap', ∃ e, transform omit_fc heap' t = inl e) →
  ∃ e, transform_all omit_fc heap ts = inl e.
Proof.
  intros Hin Hfail. revert heap.
  induction Hin as [t ts|t t' ts Hin IH]; intros heap; simpl.
  - destruct (Hfail heap) as [e ->]. by exists e.
  - destruct (transform omit_fc heap t') as [e1|[heap1 r]]; simpl.
    + by eexists.
    + destruct (IH Hfail heap1) as [e2 ->]. by eexists.
Qed.

Lemma respond_status_500 (omit_fc : bool)
    (found : gmap nat (gmap string PyObj) * SearchResults (list PyObj))
    (e : Exn) :
  respond omit_fc found = inl e → http_status 200 (respond omit_fc found) = 500.
Proof.
  intros He. rewrite He. unfold respond in He.
  destruct (transform_all omit_fc found.1 (results found.2))
    as [e'|[heap k]] eqn:Hm; [|done].
  simpl in He. injection He as <-.
  apply transform_all_inl in Hm as (t & heap' & _ & Ht).
  by destruct (transform_raises _ _ _ _ Ht) as [->|[->| ->]].
Qed.

(** C8.  Once the engine and the filters are found, the response is made
    from the engine's tuples one by one.  A tuple of two or three elements
    is transformed, the tuple of two as the tuple of three with a new empty
    dictionary for its info, and it never raises the error of
    [bottle.abort(500)].  A tuple of any other length ends the request with
    an error: a tuple of one element with the error of [bottle.abort(500)],
    the empty tuple and a tuple of four elements or more with the
    [TypeError] of the abort's message, which is formatted with the tuple
    itself.  Either way a request whose engine returned a tuple of another
    length than two or three is answered with status 500. *)
Theorem v1_search_result_shape (request : Request) (config : Config)
    (search_engines : gmap string (Config → Engine))
    (filter_preds : gmap string (Config → string → Pred))
    (cid engine_name : string) (se : Config → Engine)
    (fs : list (Config → string → Pred)) :
  search_engines !! engine_name = Some se →
  mapM (M := option) (λ n : string, filter_preds !! n)
    (filter_names_of (query request)) = Some fs →
  ∃ (omit_fc : bool) (kwargs : gmap string string)
    (filter_pred : FilterPred) (limit : Z),
    let found := se config cid kwargs filter_pred limit in
    let response :=
      (v1_search request config search_engines filter_preds cid
         engine_name).2 in
    response = respond omit_fc found
    ∧ (∀ heap t, length t = 1%nat →
                 transform omit_fc heap t = raise (HTTPError 500))
    ∧ (∀ heap t, length t = 0%nat ∨ (4 ≤ length t)%nat →
                 transform omit_fc heap t = raise TypeError)
    ∧ (∀ heap t, length t = 2%nat ∨ length t = 3%nat →
                 transform omit_fc heap t ≠ raise (HTTPError 500))
    ∧ (∀ heap a b, transform omit_fc heap [a; b]
                   = transform omit_fc heap [a; b; PyDict ∅])
    ∧ ((∃ t, t ∈ results found.2 ∧ length t ≠ 2%nat ∧ length t ≠ 3%nat) →
       (∃ e, response = inl e) ∧ http_status 200 response = 500)
    ∧ (Forall (λ t, length t = 2%nat ∨ length t = 3%nat) (results found.2) →
       response ≠ raise (HTTPError 500)).
Proof.
  intros Hse Hfs.
  pose proof (v1_search_resolved request config search_engines filter_preds
                cid engine_name se fs Hse Hfs) as Heq.
  cbv zeta in Heq. do 4 eexists. cbv zeta. rewrite Heq. cbn [snd].
  match goal with
  | |- context [respond ?o ?f] => set (omit_fc := o); set (found := f)
  end.
  split; [reflexivity|].
  split; [apply transform_one|].
  split; [apply transform_unformattable|].
  split; [apply transform_good_length|].
  split; [reflexivity|]. split.
  - intros (t & Hin & H2 & H3).
    destruct (transform_all_fails omit_fc (results found.2) found.1 t Hin)
      as [e He].
    { intros heap'.
      destruct (decide (length t = 1%nat)) as [H1|H1].
      - eexists. by apply transform_one.
      - eexists. apply transform_unformattable. lia. }
    assert (respond omit_fc found = inl e) as Hr
      by (unfold respond; by rewrite He).
    split; [by exists e|]. by eapply respond_status_500.
  - intros Hall Habs. unfold respond in Habs.
    destruct (transform_all omit_fc found.1 (results found.2))
      as [e|[heap k]] eqn:Hm; [|done].
    simpl in Habs. injection Habs as ->.
    apply transform_all_inl in Hm as (t & heap' & Hin & Ht).
    rewrite Forall_forall in Hall.
    by apply (transform_good_length omit_fc heap' t (Hall t Hin)).
Qed.

Lemma v1_search_result_shape_witness :
  ∃ (omit_fc : bool) (kwargs : gmap string string)
    (filter_pred : FilterPred) (limit : Z),
    let found := ex_bad_engine ex_config "q" kwargs filter_pred limit in
    let response :=
      (v1_search (ex_request []) ex_config ex_search_engines ex_filter_preds
         "q" "bad").2 in
    response = respond omit_fc found
    ∧ (∀ heap t, length t = 1%nat →
                 transform omit_fc heap t = raise (HTTPError 500))
    ∧ (∀ heap t, length t = 0%nat ∨ (4 ≤ length t)%nat →
                 transform omit_fc heap t = raise TypeError)
    ∧ (∀ heap t, length t = 2%nat ∨ length t = 3%nat →
                 transform omit_fc heap t ≠ raise (HTTPError 500))
    ∧ (∀ heap a b, transform omit_fc heap [a; b]
                   = transform omit_fc heap [a; b; PyDict ∅])
    ∧ ((∃ t, t ∈ results found.2 ∧ length t ≠ 2%nat ∧ length t ≠ 3%nat) →
       (∃ e, response = inl e) ∧ http_status 200 response = 500)
    ∧ (Forall (λ t, length t = 2%nat ∨ length t = 3%nat) (results found.2) →
       response ≠ raise (HTTPError 500)).
Proof.
  apply (v1_search_result_shape (ex_request []) ex_config ex_search_engines
           ex_filter_preds "q" "bad" ex_bad_engine
           [λ config, already_labeled (cfg_label_store config)]);
    reflexivity.
Defined.

(** A tuple of four elements: the message of the abort cannot be formatted.
    A tuple of one element: the abort. *)
Example v1_search_bad_tuple :
  (v1_search (ex_request []) ex_config ex_search_engines ex_filter_preds
     "q" "bad").2
  = raise TypeError
  ∧ (v1_search (ex_request []) ex_config ex_search_engines ex_filter_preds
       "q" "short").2
    = raise (HTTPError 500)
  ∧ http_status 200
      (v1_search (ex_request []) ex_config ex_search_engines ex_filter_preds
         "q" "bad").2 = 500.
Proof. repeat split; reflexivity. Qed.

Example transform_pair :
  transform true ∅ [PyStr "a"; PyFC (ex_fc "aa")]
  = ret (∅, PyDict {[ "content_id"%string := PyStr "a" ]})
  ∧ transform false ∅ [PyStr "a"; PyFC (ex_fc "aa")]
    = ret (∅,
           PyDict
             {[ "content_id"%string := PyStr "a";
                "fc"%string :=
                  PyDict {[ "#nilsimsa_all"%string :=
                              PyStringCounter {[+ "aa"%string +]};
                            "title"%string := PyUnicode "aa" ]} ]}).
Proof. split; vm_compute; reflexivity. Qed.

(** Two tuples with one info dictionary: the response shows that
    dictionary twice, with what the last of them wrote. *)
Example v1_search_shared_info :
  (v1_search (ex_request [("omit_fc", "1")]%string) ex_config
     ex_search_engines ex_filter_preds "q" "sharing").2
  = ret (MkSearchResults
           [PyDict {[ "score"%string := PyInt 7;
                      "content_id"%string := PyStr "c" ]};
            PyDict {[ "content_id"%string := PyStr "b" ]};
            PyDict {[ "score"%string := PyInt 7;
                      "content_id"%string := PyStr "c" ]}] ∅).
Proof. vm_compute. reflexivity. Qed.

(** ** The conjunction of the filter predicates *)

#[universes(polymorphic)]
Lemma py_all_true (preds : list Closure) (c : Cand) :
  (py_all preds c).1 = true ↔ Forall (λ p, admits p c = true) preds.
Proof.
  induction preds as [|p preds IH]; simpl.
  - split; [constructor|done].
  - rewrite Forall_cons. unfold admits at 1.
    destruct (call p c) as [[] p']; simpl.
    + destruct (py_all preds c) as [b preds']. simpl in *.
      rewrite <- IH. tauto.
    + split; [done|intros [? _]; done].
Qed.

#[universes(polymorphic)]
Lemma admits_lambda_all (preds : list Closure) (c : Cand) :
  admits (lambda_all preds) c = (py_all preds c).1.
Proof.
  unfold admits, call, lambda_all. simpl. by destruct (py_all preds c).
Qed.

#[universes(polymorphic)]
Lemma after_lambda_all (preds : list Closure) (c : Cand) :
  after (lambda_all preds) c = lambda_all (py_all preds c).2.
Proof.
  unfold after, call, lambda_all. simpl. by destruct (py_all preds c).
Qed.

#[universes(polymorphic)]
Lemma py_filter_cons (p : Closure) (c : Cand) (l : list Cand) :
  py_filter p (c :: l)
  = (if admits p c then [c] else []) ++ py_filter (after p c) l.
Proof.
  simpl. unfold admits, after. by destruct (call p c) as [[] p'].
Qed.

#[universes(polymorphic)]
Lemma py_all_cons (p : Closure) (ps : list Closure) (c : Cand) :
  py_all (p :: ps) c
  = if admits p c
    then ((py_all ps c).1, after p c :: (py_all ps c).2)
    else (false, after p c :: ps).
Proof.
  simpl. unfold admits, after. destruct (call p c) as [[] p']; simpl; [|done].
  by destruct (py_all ps c).
Qed.

#[universes(polymorphic)]
Lemma advance_nil (preds : list Closure) : advance preds [] = preds.
Proof. induction preds as [|p preds IH]; simpl; [done|]. by rewrite IH. Qed.

#[universes(polymorphic)]
Lemma advance_length (preds : list Closure) (l : list Cand) :
  length (advance preds l) = length preds.
Proof.
  revert l. induction preds as [|p preds IH]; intros l; [done|].
  cbn [advance length]. by rewrite IH.
Qed.

(** One candidate more: the predicates the conjunction leaves after it are
    advanced over the rest of the stream. *)
#[universes(polymorphic)]
Lemma advance_cons (preds : list Closure) (c : Cand) (l : list Cand) :
  advance preds (c :: l) = advance (py_all preds c).2 l.
Proof.
  revert c l. induction preds as [|p preds IH]; intros c l; [done|].
  rewrite py_all_cons.
  change (advance (p :: preds) (c :: l))
    with (after_all (after p c) l :: advance preds (py_filter p (c :: l))).
  rewrite py_filter_cons.
  destruct (admits p c); cbn [fst snd app advance].
  - by rewrite IH.
  - done.
Qed.

(** The conjunction after a stream is the conjunction of the predicates
    after the stream. *)
#[universes(polymorphic)]
Lemma after_all_lambda_all_advance (preds : list Closure) (l : list Cand) :
  after_all (lambda_all preds) l = lambda_all (advance preds l).
Proof.
  revert preds. induction l as [|c l IH]; intros preds.
  - by rewrite advance_nil.
  - cbn [after_all]. rewrite after_lambda_all, IH. by rewrite advance_cons.
Qed.

#[universes(polymorphic)]
Lemma advance_lookup (preds : list Closure) (l : list Cand) (k : nat) :
  advance preds l !! k
  = (λ p, after_all p (foldl (λ kept q, py_filter q kept) l (take k preds)))
      <$> preds !! k.
Proof.
  revert l k. induction preds as [|p preds IH]; intros l k; [done|].
  destruct k as [|k]; [done|].
  cbn [advance]. rewrite !lookup_cons. cbn [take foldl]. apply IH.
Qed.

Lemma admits_already_labeled (label_store : LabelStore)
    (query_id : string) (c : Cand) :
  admits (already_labeled label_store query_id) c = true
  ↔ ¬ ∃ lab, lab ∈ directly_connected label_store query_id
             ∧ label_joins query_id c.1 lab = true.
Proof.
  unfold admits, call, already_labeled. simpl.
  rewrite negb_true_iff, <- not_true_iff_false, existsb_exists.
  by setoid_rewrite list_elem_of_In.
Qed.

Lemma after_already_labeled (label_store : LabelStore)
    (query_id : string) (c : Cand) :
  after (already_labeled label_store query_id) c
  = already_labeled label_store query_id.
Proof. reflexivity. Qed.

Lemma after_all_default (label_store : LabelStore) (query_id : string)
    (l : list Cand) :
  after_all (lambda_all [already_labeled label_store query_id]) l
  = lambda_all [already_labeled label_store query_id].
Proof.
  induction l as [|c l IH]; simpl; [done|].
  rewrite after_lambda_all.
  replace (py_all [already_labeled label_store query_id] c).2
    with [already_labeled label_store query_id]; [done|].
  simpl. unfold call. simpl.
  by destruct (negb _).
Qed.

(** C1.  Once the engine and the filters are found, the engine is handed the
    conjunction of the predicates made from the registry entries of the
    filter names.  When the request names filters, these are the entries of
    the named filters, in order.  The conjunction admits a candidate exactly
    when every one of the predicates admits it: at the start, and after any
    stream of candidates, where a predicate is in the state that its calls
    on the candidates of the stream that the predicates before it admitted
    have left it in.  When the request names no filter, there is one
    predicate, the registry's entry for [already_labeled]; when that entry is
    the filter of that name, a candidate is admitted exactly when no label
    directly connected to the query joins the query and the candidate. *)
Theorem v1_search_filter_pred (request : Request) (config : Config)
    (search_engines : gmap string (Config → Engine))
    (filter_preds : gmap string (Config → string → Pred))
    (cid engine_name : string) (se : Config → Engine)
    (fs : list (Config → string → Pred)) :
  search_engines !! engine_name = Some se →
  mapM (M := option) (λ n : string, filter_preds !! n)
    (filter_names_of (query request)) = Some fs →
  let names := Query.getall "filter" (query request) in
  let preds : list Pred := (λ p : Config → string → Pred, p config cid) <$> fs in
  (∃ (omit_fc : bool) (kwargs : gmap string string) (limit : Z),
     (v1_search request config search_engines filter_preds cid
        engine_name).2
     = respond omit_fc (se config cid kwargs (lambda_all preds) limit))
  ∧ (names ≠ [] →
     Forall2 (λ n f, filter_preds !! n = Some f) names fs)
  ∧ (∀ c, admits (lambda_all preds) c = true
          ↔ Forall (λ p : Pred, admits p c = true) preds)
  ∧ (∀ l c,
       admits (after_all (lambda_all preds) l) c = true
       ↔ ∀ (k : nat) (p : Pred), preds !! k = Some p →
           admits
             (after_all p
                (foldl (λ kept (q : Pred), py_filter q kept) l
                   (take k preds))) c
           = true)
  ∧ (∀ l, after_all (lambda_all preds) l = lambda_all (advance preds l)
          ∧ length (advance preds l) = (length names `max` 1)%nat)
  ∧ (names = [] →
     (∃ f, filter_preds !! "already_labeled"%string = Some f ∧ fs = [f])
     ∧ (filter_preds !! "already_labeled"%string
        = Some (λ config, already_labeled (cfg_label_store config)) →
        ∀ l c,
          admits (after_all (lambda_all preds) l) c = true
          ↔ ¬ ∃ lab,
                lab ∈ directly_connected (cfg_label_store config) cid
                ∧ label_joins cid c.1 lab = true)).
Proof.
  intros Hse Hfs names preds.
  pose proof (v1_search_resolved request config search_engines filter_preds
                cid engine_name se fs Hse Hfs) as Heq.
  cbv zeta in Heq. fold preds in Heq.
  apply mapM_Some in Hfs.
  assert (length fs = length names `max` 1)%nat as Hlen.
  { apply Forall2_length in Hfs. rewrite <- Hfs. unfold filter_names_of.
    fold names. destruct names; simpl; lia. }
  split; [|split; [|split; [|split; [|split]]]].
  - rewrite Heq. cbn [snd]. by do 3 eexists.
  - intros Hne. revert Hfs. unfold filter_names_of. fold names.
    by destruct names.
  - intros c. rewrite admits_lambda_all. apply py_all_true.
  - intros l c.
    rewrite after_all_lambda_all_advance, admits_lambda_all, py_all_true.
    rewrite Forall_lookup. split.
    + intros Hall k p Hk.
      apply (Hall k). by rewrite advance_lookup, Hk.
    + intros Hall k p' Hk. rewrite advance_lookup in Hk.
      destruct (preds !! k) as [p|] eqn:Hp; [|done].
      injection Hk as <-. by apply Hall.
  - intros l. split; [apply after_all_lambda_all_advance|].
    rewrite advance_length. unfold preds. by rewrite length_fmap.
  - intros Hnames. revert Hfs. unfold filter_names_of. fold names.
    rewrite Hnames. intros Hfs.
    apply Forall2_cons_inv_l in Hfs as (f & fs' & Hf & Hnil & ->).
    apply Forall2_nil_inv_l in Hnil as ->.
    split; [by exists f|].
    intros Hal. rewrite Hf in Hal. injection Hal as ->.
    intros l c. subst preds. simpl.
    rewrite after_all_default, admits_lambda_all, py_all_true.
    rewrite Forall_singleton. apply admits_already_labeled.
Qed.

Lemma v1_search_filter_pred_witness :
  let request :=
    ex_request [("filter", "already_labeled");
                ("filter", "nilsimsa_near_duplicates")]%string in
  let fs : list (Config → string → Pred) :=
    [λ config, already_labeled (cfg_label_store config);
     λ config,
       nilsimsa_near_duplicates (cfg_label_store config) (cfg_store config)
         120] in
  let names := Query.getall "filter" (query request) in
  let preds : list Pred :=
    (λ p : Config → string → Pred, p ex_config "q"%string) <$> fs in
  (∃ (omit_fc : bool) (kwargs : gmap string string) (limit : Z),
     (v1_search request ex_config ex_search_engines ex_filter_preds "q"
        "scan").2
     = respond omit_fc
         (ex_engine ex_config "q" kwargs (lambda_all preds) limit))
  ∧ (names ≠ [] →
     Forall2 (λ n f, ex_filter_preds !! n = Some f) names fs)
  ∧ (∀ c, admits (lambda_all preds) c = true
          ↔ Forall (λ p : Pred, admits p c = true) preds)
  ∧ (∀ l c,
       admits (after_all (lambda_all preds) l) c = true
       ↔ ∀ (k : nat) (p : Pred), preds !! k = Some p →
           admits
             (after_all p
                (foldl (λ kept (q : Pred), py_filter q kept) l
                   (take k preds))) c
           = true)
  ∧ (∀ l, after_all (lambda_all preds) l = lambda_all (advance preds l)
          ∧ length (advance preds l) = (length names `max` 1)%nat)
  ∧ (names = [] →
     (∃ f, ex_filter_preds !! "already_labeled"%string = Some f ∧ fs = [f])
     ∧ (ex_filter_preds !! "already_labeled"%string
        = Some (λ config, already_labeled (cfg_label_store config)) →
        ∀ l c,
          admits (after_all (lambda_all preds) l) c = true
          ↔ ¬ ∃ lab,
                lab ∈ directly_connected (cfg_label_store ex_config) "q"
                ∧ label_joins "q" c.1 lab = true)).
Proof.
  apply (v1_search_filter_pred
           (ex_request [("filter", "already_labeled");
                        ("filter", "nilsimsa_near_duplicates")]%string)
           ex_config ex_search_engines ex_filter_preds "q" "scan" ex_engine);
    reflexivity.
Defined.

(** A conjunction over a stream: the near-duplicate filter sees only what
    the label filter admitted, and remembers it.  The candidate [c] follows
    [a], a near duplicate of it: the conjunction rejects [c] after [a] and
    admits it at the start. *)
Example v1_search_conjunction_advances :
  let p := already_labeled ex_label_store "q" in
  let q := nilsimsa_near_duplicates ex_label_store ex_store 120 "q" in
  let a : Cand := ("a"%string, ex_fc "bb") in
  let c : Cand := ("c"%string, ex_fc "bb") in
  admits (lambda_all [q; p]) c = true
  ∧ admits (after_all (lambda_all [q; p]) [a]) c = false.
Proof. split; vm_compute; reflexivity. Qed.

(** The default filter keeps what no label joins to the query; the
    near-duplicate filter keeps what is no near duplicate of it; the two
    together keep what both keep. *)
Example v1_search_default_filter :
  (v1_search (ex_request [("omit_fc", "1")]%string) ex_config
     ex_search_engines ex_filter_preds "q" "scan").2
  = ret (MkSearchResults
           [PyDict {[ "content_id"%string := PyStr "q" ]};
            PyDict {[ "content_id"%string := PyStr "b" ]}] ∅).
Proof. vm_compute. reflexivity. Qed.

Example v1_search_nilsimsa_filter :
  (v1_search
     (ex_request [("omit_fc", "1");
                  ("filter", "nilsimsa_near_duplicates")]%string)
     ex_config ex_search_engines ex_filter_preds "q" "scan").2
  = ret (MkSearchResults [PyDict {[ "content_id"%string := PyStr "a" ]}] ∅).
Proof. vm_compute. reflexivity. Qed.

Example v1_search_both_filters :
  (v1_search
     (ex_request [("omit_fc", "1"); ("filter", "nilsimsa_near_duplicates");
                  ("filter", "already_labeled")]%string)
     ex_config ex_search_engines ex_filter_preds "q" "scan").2
  = ret (MkSearchResults [] ∅).
Proof. vm_compute. reflexivity. Qed.

(** ** Pagination *)

Lemma islice_ok `{Sys} {A} (it : list A) (start stop : Z) :
  0 ≤ start ≤ maxint → 0 ≤ stop ≤ maxint →
  islice it start stop
  = ret (take (Z.to_nat (stop - start)) (drop (Z.to_nat start) it)).
Proof. intros Hs Hp. unfold islice. by rewrite bool_decide_true. Qed.

Lemma islice_above `{Sys} {A} (it : list A) (start stop : Z) :
  maxint < stop → islice it start stop = raise ValueError.
Proof. intros Hs. unfold islice. rewrite bool_decide_false; [done|lia]. Qed.

Lemma islice_inv `{Sys} {A} (it items : list A) (start stop : Z) :
  islice it start stop = ret items →
  (0 ≤ start ≤ maxint ∧ 0 ≤ stop ≤ maxint)
  ∧ items = take (Z.to_nat (stop - start)) (drop (Z.to_nat start) it).
Proof.
  unfold islice. case_bool_decide as Hb; [|discriminate].
  by intros [= <-].
Qed.

Lemma slice_lookup {A} (it : list A) (start per : Z) (i : nat) :
  0 ≤ start → 0 ≤ per →
  take (Z.to_nat (start + per - start)) (drop (Z.to_nat start) it) !! i
  = if bool_decide (Z.of_nat i < per)
    then it !! (Z.to_nat start + i)%nat else None.
Proof.
  intros Hs Hp.
  replace (start + per - start) with per by lia.
  case_bool_decide.
  - rewrite lookup_take_lt by lia. by rewrite lookup_drop.
  - rewrite lookup_take_ge by lia. done.
Qed.

Lemma paginate_ok `{Urllib} `{Sys} {A} (request : Request)
    (response : Response) (it : list A) (page per : Z) :
  int_param "page" 1 (query request) = ret page →
  int_param "perpage" 2 (query request) = ret per →
  (Z.max 1 page - 1) * Z.min 500 (Z.max 1 per) + Z.min 500 (Z.max 1 per)
  ≤ maxint →
  paginate request response it
  = ret (add_link_headers request response (Z.max 1 page)
           (Z.min 500 (Z.max 1 per)),
         take (Z.to_nat ((Z.max 1 page - 1) * Z.min 500 (Z.max 1 per)
                         + Z.min 500 (Z.max 1 per)
                         - (Z.max 1 page - 1) * Z.min 500 (Z.max 1 per)))
           (drop (Z.to_nat ((Z.max 1 page - 1) * Z.min 500 (Z.max 1 per)))
              it)).
Proof.
  intros Hpage Hper Hmax. unfold paginate. rewrite Hpage, Hper.
  cbv beta iota zeta. simpl.
  rewrite islice_ok; [done| |].
  - assert (0 ≤ (Z.max 1 page - 1) * Z.min 500 (Z.max 1 per))
      by (apply Z.mul_nonneg_nonneg; lia).
    lia.
  - assert (0 ≤ (Z.max 1 page - 1) * Z.min 500 (Z.max 1 per))
      by (apply Z.mul_nonneg_nonneg; lia).
    lia.
Qed.

Lemma paginate_above `{Urllib} `{Sys} {A} (request : Request)
    (response : Response) (it : list A) (page per : Z) :
  int_param "page" 1 (query request) = ret page →
  int_param "perpage" 2 (query request) = ret per →
  maxint
  < (Z.max 1 page - 1) * Z.min 500 (Z.max 1 per) + Z.min 500 (Z.max 1 per) →
  paginate request response it = raise ValueError.
Proof.
  intros Hpage Hper Hmax. unfold paginate. rewrite Hpage, Hper.
  cbv beta iota zeta. simpl. by rewrite islice_above.
Qed.

Lemma paginate_inv `{Urllib} `{Sys} {A} (request : Request)
    (response response' : Response) (it items : list A) :
  paginate request response it = ret (response', items) →
  ∃ page per : Z,
    int_param "page" 1 (query request) = ret page
    ∧ int_param "perpage" 2 (query request) = ret per
    ∧ (Z.max 1 page - 1) * Z.min 500 (Z.max 1 per)
      + Z.min 500 (Z.max 1 per) ≤ maxint
    ∧ response'
      = add_link_headers request response (Z.max 1 page)
          (Z.min 500 (Z.max 1 per))
    ∧ items
      = take (Z.to_nat ((Z.max 1 page - 1) * Z.min 500 (Z.max 1 per)
                        + Z.min 500 (Z.max 1 per)
                        - (Z.max 1 page - 1) * Z.min 500 (Z.max 1 per)))
          (drop (Z.to_nat ((Z.max 1 page - 1) * Z.min 500 (Z.max 1 per)))
             it).
Proof.
  unfold paginate.
  destruct (int_param "page" 1 (query request)) as [e|page]; [discriminate|].
  destruct (int_param "perpage" 2 (query request)) as [e|per];
    [discriminate|].
  cbv beta iota zeta. simpl.
  destruct (islice it _ _) as [e|items'] eqn:Hsl; [discriminate|].
  simpl. intros [= <- <-].
  apply islice_inv in Hsl as [[_ Hmax] ->].
  exists page, per. repeat split; try done. lia.
Qed.

(** The header that [add_link_headers] sets, character by character. *)
Lemma link_header_text `{Urllib} (request : Request) (response : Response)
    (page per : Z) :
  let u := urlsplit (url request) in
  let url_of v :=
    urlunsplit
      (MkSplit (scheme u) (netloc u) (path u)
         (urlencode (<["page"%string := [v]]> (parse_qs (qs u)))) (frag u)) in
  let link rel v :=
    "<" +:+ url_of v +:+ ">; rel=" +:+ String "034"%char ""
    +:+ rel +:+ String "034"%char "" in
  headers (add_link_headers request response page per) !! "Link"%string
  = Some (if bool_decide (1 < page)
          then link "first" "1" +:+ ", "
               +:+ link "prev" (py_str (page - 1)) +:+ ", "
               +:+ link "next" (py_str (page + 1))
          else link "next" (py_str (page + 1))).
Proof.
  intros u url_of link. unfold add_link_headers. simpl.
  rewrite lookup_insert_eq. f_equal. unfold links.
  by case_bool_decide.
Qed.

(** C6, as the specification has it, fails: with [perpage=0] the page size
    is 1, not [min(500, 0)], and the first page holds the first item. *)
Lemma paginate_perpage_zero :
  let request :=
    ex_label_request [("page", "1"); ("perpage", "0")]%string in
  let it := [10; 11; 12; 13; 14] in
  (∃ response, paginate request ex_response it = ret (response, [10]))
  ∧ claimed_page 1 0 it = []
  ∧ ¬ ∃ response,
        paginate request ex_response it
        = ret (response, claimed_page 1 0 it).
Proof.
  split; [|split].
  - eexists. reflexivity.
  - reflexivity.
  - intros [response Heq]. vm_compute in Heq. discriminate.
Qed.

Lemma int_param_absent (key : string) (dflt n : Z) (q : Query.t) :
  Query.get key q = None → int_param key dflt q = ret n → n = dflt.
Proof. unfold int_param. intros ->. by intros [= <-]. Qed.

(** C6, amended.  When the [page] and [perpage] parameters are absent or
    integers, the page size is [perpage] clamped to the range from 1 to 500,
    2 when absent, and the page is [page] clamped to at least 1.  When the
    end index [p*per] is above [sys.maxint] the call raises [ValueError];
    otherwise the response holds exactly the stream items at the indices
    from [(p-1)*per] up to [p*per], the latter excluded, and its [Link]
    header is, for each link, the url of the request with its [page]
    parameter replaced, in angle brackets, then [; rel=] and the relation in
    double quotes, the links joined by a comma and a blank: a [next] to page
    [p+1], preceded, when [p] is greater than 1, by a [first] to page 1 and
    a [prev] to page [p-1].  Over a stream of five items with page size 2,
    page 1 holds the first two items and its header is a [next] to page 2;
    page 2 holds the third and fourth and its header is a [first] to page 1,
    a [prev] to page 1 and a [next] to page 3. *)
Theorem paginate_page `{Urllib} `{Sys} {A} (request : Request)
    (response : Response) (it : list A) (page per : Z) :
  int_param "page" 1 (query request) = ret page →
  int_param "perpage" 2 (query request) = ret per →
  let per' := Z.min 500 (Z.max 1 per) in
  let page' := Z.max 1 page in
  let stop := (page' - 1) * per' + per' in
  let u := urlsplit (url request) in
  let url_of v :=
    urlunsplit
      (MkSplit (scheme u) (netloc u) (path u)
         (urlencode (<["page"%string := [v]]> (parse_qs (qs u)))) (frag u)) in
  let link rel v :=
    "<" +:+ url_of v +:+ ">; rel=" +:+ String "034"%char ""
    +:+ rel +:+ String "034"%char "" in
  (Query.get "perpage" (query request) = None → per' = 2)
  ∧ 1 ≤ per' ≤ 500
  ∧ (1 ≤ per ≤ 500 → per' = per)
  ∧ (500 < per → per' = 500)
  ∧ (1 ≤ page → page' = page)
  ∧ (maxint < stop → paginate request response it = raise ValueError)
  ∧ (stop ≤ maxint →
     ∃ (response' : Response) (items : list A),
       paginate request response it = ret (response', items)
       ∧ (∀ i : nat,
            items !! i
            = if bool_decide (Z.of_nat i < per')
              then it !! (Z.to_nat ((page' - 1) * per') + i)%nat else None)
       ∧ headers response' !! "Link"%string
         = Some (if bool_decide (1 < page')
                 then link "first" "1" +:+ ", "
                      +:+ link "prev" (py_str (page' - 1)) +:+ ", "
                      +:+ link "next" (py_str (page' + 1))
                 else link "next" (py_str (page' + 1)))
       ∧ (∀ a b c d e, it = [a; b; c; d; e] → per' = 2 →
            (page' = 1 →
             items = [a; b]
             ∧ headers response' !! "Link"%string = Some (link "next" "2"))
            ∧ (page' = 2 →
               items = [c; d]
               ∧ headers response' !! "Link"%string
                 = Some (link "first" "1" +:+ ", " +:+ link "prev" "1"
                         +:+ ", " +:+ link "next" "3")))).
Proof.
  intros Hpage Hper per' page' stop u url_of link.
  split. { intros Hnone. apply (int_param_absent _ _ _ _ Hnone) in Hper. lia. }
  split; [lia|]. split; [lia|]. split; [lia|]. split; [lia|].
  split. { intros Hmax. by apply (paginate_above _ _ _ page per). }
  intros Hmax. do 2 eexists.
  split. { by apply (paginate_ok _ _ _ page per). }
  fold per' page'.
  split.
  { intros i. apply slice_lookup; [|lia].
    apply Z.mul_nonneg_nonneg; lia. }
  split. { apply link_header_text. }
  intros a b c d e -> Hp.
  rewrite (link_header_text request response page' per'). rewrite Hp.
  split; intros ->; by split.
Qed.

Lemma paginate_page_witness :
  let request := ex_label_request [("page", "2")]%string in
  let it := [10; 11; 12; 13; 14] in
  let per' := Z.min 500 (Z.max 1 2) in
  let page' := Z.max 1 2 in
  let stop := (page' - 1) * per' + per' in
  let u := urlsplit (url request) in
  let url_of v :=
    urlunsplit
      (MkSplit (scheme u) (netloc u) (path u)
         (urlencode (<["page"%string := [v]]> (parse_qs (qs u)))) (frag u)) in
  let link rel v :=
    "<" +:+ url_of v +:+ ">; rel=" +:+ String "034"%char ""
    +:+ rel +:+ String "034"%char "" in
  (Query.get "perpage" (query request) = None → per' = 2)
  ∧ 1 ≤ per' ≤ 500
  ∧ (1 ≤ 2 ≤ 500 → per' = 2)
  ∧ (500 < 2 → per' = 500)
  ∧ (1 ≤ 2 → page' = 2)
  ∧ (maxint < stop → paginate request ex_response it = raise ValueError)
  ∧ (stop ≤ maxint →
     ∃ (response' : Response) (items : list Z),
       paginate request ex_response it = ret (response', items)
       ∧ (∀ i : nat,
            items !! i
            = if bool_decide (Z.of_nat i < per')
              then it !! (Z.to_nat ((page' - 1) * per') + i)%nat else None)
       ∧ headers response' !! "Link"%string
         = Some (if bool_decide (1 < page')
                 then link "first" "1" +:+ ", "
                      +:+ link "prev" (py_str (page' - 1)) +:+ ", "
                      +:+ link "next" (py_str (page' + 1))
                 else link "next" (py_str (page' + 1)))
       ∧ (∀ a b c d e, it = [a; b; c; d; e] → per' = 2 →
            (page' = 1 →
             items = [a; b]
             ∧ headers response' !! "Link"%string = Some (link "next" "2"))
            ∧ (page' = 2 →
               items = [c; d]
               ∧ headers response' !! "Link"%string
                 = Some (link "first" "1" +:+ ", " +:+ link "prev" "1"
                         +:+ ", " +:+ link "next" "3")))).
Proof.
  apply (paginate_page (ex_label_request [("page", "2")]%string) ex_response
           [10; 11; 12; 13; 14] 2 2); reflexivity.
Defined.

Example paginate_page_1 :
  (λ r, (headers r.1 !! "Link"%string, r.2)) <$>
    paginate (ex_label_request [("page", "1"); ("perpage", "2")]%string)
      ex_response [10; 11; 12; 13; 14]
  = inr (Some (tuple_to_link
                 ("next"%string,
                  "http://localhost/dossier/v1/label/q/direct?page=2"%string)),
         [10; 11]).
Proof. vm_compute. reflexivity. Qed.

Example paginate_page_2 :
  (λ r, (headers r.1 !! "Link"%string, r.2)) <$>
    paginate (ex_label_request [("page", "2"); ("perpage", "2")]%string)
      ex_response [10; 11; 12; 13; 14]
  = inr (Some (join ", "
                 (tuple_to_link <$>
                    [("first",
                      "http://localhost/dossier/v1/label/q/direct?page=1");
                     ("prev",
                      "http://localhost/dossier/v1/label/q/direct?page=1");
                     ("next",
                      "http://localhost/dossier/v1/label/q/direct?page=3")]%string)),
         [12; 13]).
Proof. vm_compute. reflexivity. Qed.

Example paginate_not_an_integer :
  paginate (ex_label_request [("perpage", "many")]%string) ex_response
    [10; 11; 12]
  = raise ValueError.
Proof. reflexivity. Qed.

(** A page whose end index is above [sys.maxint]: [islice] raises
    [ValueError], which the server answers with status 500. *)
Example paginate_above_maxint :
  paginate
    (ex_label_request [("page", "9223372036854775807")]%string) ex_response
    [10; 11; 12]
  = raise ValueError
  ∧ http_status 200
      (paginate
         (ex_label_request [("page", "9223372036854775807")]%string)
         ex_response [10; 11; 12])
    = 500.
Proof. split; vm_compute; reflexivity. Qed.

(** The three label endpoints paginate their stream of labels. *)
Lemma v1_label_direct_paginates `{Urllib} `{Sys} (request : Request)
    (response : Response) (label_store : LabelStore) (cid : string) :
  v1_label_direct request response label_store cid
  = paginate request response
      (label_to_json <$> directly_connected label_store cid)
  ∧ v1_label_negative request response label_store cid
    = paginate request response
        (label_to_json <$> negative_inference label_store cid)
  ∧ (Query.get "method" (query request) = None →
     v1_label_positive request response label_store cid
     = paginate request response
         (label_to_json <$> connected_component label_store cid)).
Proof.
  split; [done|]. split; [done|].
  intros Hm. unfold v1_label_positive. by rewrite Hm.
Qed.

(** C10.  For every response that [paginate] returns, the [page] and
    [perpage] parameters are absent or integers, and the [Link] header of
    the response ends with the link of relation [next] to the page after
    the current one: the url of the request with its [page] parameter set to
    [p+1], in angle brackets, then [; rel="next"].  This holds whatever the
    stream, also when the page starts at or past its end and is empty.  The
    header is that link alone when the requested page is at most 1, and the
    link is preceded by a [first] to page 1 and a [prev] to the page before
    when the requested page is greater than 1. *)
Theorem paginate_link_header `{Urllib} `{Sys} {A} (request : Request)
    (response : Response) (it : list A) (response' : Response)
    (items : list A) :
  paginate request response it = ret (response', items) →
  ∃ page per : Z,
    int_param "page" 1 (query request) = ret page
    ∧ int_param "perpage" 2 (query request) = ret per
    ∧ let page' := Z.max 1 page in
      let per' := Z.min 500 (Z.max 1 per) in
      let u := urlsplit (url request) in
      let url_of v :=
        urlunsplit
          (MkSplit (scheme u) (netloc u) (path u)
             (urlencode (<["page"%string := [v]]> (parse_qs (qs u))))
             (frag u)) in
      let link rel v :=
        "<" +:+ url_of v +:+ ">; rel=" +:+ String "034"%char ""
        +:+ rel +:+ String "034"%char "" in
      let next := link "next" (py_str (page' + 1)) in
      (1 ≤ page → page' + 1 = page + 1)
      ∧ (page ≤ 1 → headers response' !! "Link"%string = Some next)
      ∧ (1 < page →
         headers response' !! "Link"%string
         = Some (link "first" "1" +:+ ", "
                 +:+ link "prev" (py_str (page - 1)) +:+ ", " +:+ next))
      ∧ (Z.of_nat (length it) ≤ (page' - 1) * per' → items = []).
Proof.
  intros Hpag.
  apply paginate_inv in Hpag as (page & per & Hpage & Hper & Hmax & -> & ->).
  exists page, per. split; [done|]. split; [done|].
  intros page' per' u url_of link next.
  split; [lia|].
  split.
  { intros Hp. rewrite (link_header_text request response page' per').
    rewrite bool_decide_false by lia. done. }
  split.
  { intros Hp. rewrite (link_header_text request response page' per').
    rewrite bool_decide_true by lia.
    replace (page' - 1) with (page - 1) by lia. done. }
  intros Hlen. fold page' per'. rewrite drop_ge; [by rewrite take_nil|].
  lia.
Qed.

Lemma paginate_link_header_witness :
  let request := ex_label_request [("page", "7")]%string in
  let it := [10; 11; 12; 13; 14] in
  ∃ page per : Z,
    int_param "page" 1 (query request) = ret page
    ∧ int_param "perpage" 2 (query request) = ret per
    ∧ let page' := Z.max 1 page in
      let per' := Z.min 500 (Z.max 1 per) in
      let u := urlsplit (url request) in
      let url_of v :=
        urlunsplit
          (MkSplit (scheme u) (netloc u) (path u)
             (urlencode (<["page"%string := [v]]> (parse_qs (qs u))))
             (frag u)) in
      let link rel v :=
        "<" +:+ url_of v +:+ ">; rel=" +:+ String "034"%char ""
        +:+ rel +:+ String "034"%char "" in
      let next := link "next" (py_str (page' + 1)) in
      (1 ≤ page → page' + 1 = page + 1)
      ∧ (page ≤ 1 →
         headers (add_link_headers request ex_response 7 2) !! "Link"%string
         = Some next)
      ∧ (1 < page →
         headers (add_link_headers request ex_response 7 2) !! "Link"%string
         = Some (link "first" "1" +:+ ", "
                 +:+ link "prev" (py_str (page - 1)) +:+ ", " +:+ next))
      ∧ (Z.of_nat (length it) ≤ (page' - 1) * per' → @nil Z = []).
Proof.
  apply (paginate_link_header (ex_label_request [("page", "7")]%string)
           ex_response [10; 11; 12; 13; 14]
           (add_link_headers (ex_label_request [("page", "7")]%string)
              ex_response 7 2) []).
  vm_compute. reflexivity.
Defined.

Example paginate_past_the_end :
  (λ r, (headers r.1 !! "Link"%string, r.2)) <$>
    paginate (ex_label_request [("page", "7")]%string)
      ex_response [10; 11; 12; 13; 14]
  = inr (Some ("<http://localhost/dossier/v1/label/q/direct?page=1>; rel="
               +:+ dquote +:+ "first" +:+ dquote
               +:+ ", <http://localhost/dossier/v1/label/q/direct?page=6>; rel="
               +:+ dquote +:+ "prev" +:+ dquote
               +:+ ", <http://localhost/dossier/v1/label/q/direct?page=8>; rel="
               +:+ dquote +:+ "next" +:+ dquote),
         []).
Proof. vm_compute. reflexivity. Qed.

(** ** The reservoir sampler and the random endpoint *)

Lemma list_insert_elem {A} (l : list A) (j : nat) (x y : A) :
  y ∈ <[j := x]> l → y = x ∨ y ∈ l.
Proof.
  revert j. induction l as [|z l IH]; intros j; simpl; [by right|].
  destruct j as [|j]; simpl.
  - intros [->|?]%elem_of_cons; [by left|]. right. by right.
  - intros [->|Hin]%elem_of_cons; [right; by left|].
    destruct (IH j Hin) as [?|?]; [by left|]. right. by right.
Qed.

Lemma sample_from_length {A} (rand : nat → nat) (k i : nat)
    (reservoir seq : list A) :
  length reservoir = (i `min` k)%nat →
  length (sample_from rand k i reservoir seq)
  = ((i + length seq) `min` k)%nat.
Proof.
  revert i reservoir. induction seq as [|x seq IH]; intros i reservoir Hlen.
  - cbn [sample_from length]. rewrite Hlen. lia.
  - cbn [sample_from length]. case_bool_decide.
    + rewrite IH; [lia|]. rewrite length_app. cbn [length]. lia.
    + rewrite IH; [lia|].
      case_bool_decide; [rewrite length_insert|]; lia.
Qed.

Lemma sample_from_elem {A} (rand : nat → nat) (k i : nat)
    (reservoir seq : list A) (y : A) :
  y ∈ sample_from rand k i reservoir seq → y ∈ reservoir ∨ y ∈ seq.
Proof.
  revert i reservoir. induction seq as [|x seq IH]; intros i reservoir; simpl.
  - by left.
  - case_bool_decide.
    + intros [Hin|Hin]%IH; [|right; by right].
      apply elem_of_app in Hin as [?|Hx]; [by left|].
      apply list_elem_of_singleton in Hx as ->. right. by left.
    + intros [Hin|Hin]%IH; [|right; by right].
      case_bool_decide; [|by left].
      apply list_insert_elem in Hin as [->|?]; [right; by left|by left].
Qed.

(** The sample: no longer than [k], as long as [k] when that many items
    were read, and made of items that were read. *)
Lemma streaming_sample_spec {A} (rand : nat → nat) (seq : list A)
    (k limit : nat) :
  length (streaming_sample rand seq k (Some limit))
  = ((length seq `min` limit) `min` k)%nat
  ∧ ∀ y, y ∈ streaming_sample rand seq k (Some limit) → y ∈ take limit seq.
Proof.
  unfold streaming_sample. simpl. split.
  - rewrite sample_from_length by done. rewrite length_take. lia.
  - intros y [Hin|Hin]%sample_from_elem; [|done].
    by apply elem_of_nil in Hin.
Qed.

Lemma scan_ids_lookup (store : gmap string (gmap string PyObj))
    (cid : string) :
  cid ∈ scan_ids store → ∃ fc, store !! cid = Some fc.
Proof.
  unfold scan_ids. intros ([cid' fc] & -> & Hin)%list_elem_of_fmap.
  exists fc. by apply elem_of_map_to_list.
Qed.

(** C7.  The random endpoint runs the sampler over the scan of the ids with
    sample size 1 and cutoff 1000; the sample is empty exactly when the
    store is; the endpoint aborts with 404 exactly when the sample is empty;
    otherwise the sample is one content id, among the first 1000 scanned,
    and the endpoint returns it with its collection as [fc_to_json] gives
    it. *)
Theorem v1_random_fc_get_sample (rand : nat → nat)
    (store : gmap string (gmap string PyObj)) :
  let sample :=
    streaming_sample rand (scan_ids store) 1 (Some 1000%nat) in
  v1_random_fc_get rand store
  = match sample with
    | [] => raise (HTTPError 404)
    | cid :: _ => fc ← fc_to_json (store_get store cid); ret (cid, fc)
    end
  ∧ (sample = [] ↔ store = ∅)
  ∧ (v1_random_fc_get rand store = raise (HTTPError 404) ↔ sample = [])
  ∧ (http_status 200 (v1_random_fc_get rand store) = 404 ↔ sample = [])
  ∧ (sample ≠ [] →
     ∃ cid fc,
       sample = [cid]
       ∧ cid ∈ take 1000 (scan_ids store)
       ∧ store !! cid = Some fc
       ∧ fc_to_json (PyFC fc) = ret (filter (λ kv, is_json_feature kv.2) fc)
       ∧ v1_random_fc_get rand store
         = ret (cid, filter (λ kv, is_json_feature kv.2) fc)).
Proof.
  intros sample.
  destruct (streaming_sample_spec rand (scan_ids store) 1 1000)
    as [Hlen Helem].
  fold sample in Hlen, Helem.
  assert (sample ≠ [] →
          ∃ cid fc, sample = [cid] ∧ cid ∈ take 1000 (scan_ids store)
                    ∧ store !! cid = Some fc) as Hne.
  { intros Hs. destruct sample as [|cid [|cid' rest]] eqn:Hsample; [done| |].
    - assert (cid ∈ take 1000 (scan_ids store)) as Hin
        by (apply Helem; by left).
      destruct (scan_ids_lookup store cid) as [fc Hfc].
      { by apply (subseteq_take 1000). }
      by exists cid, fc.
    - simpl in Hlen. lia. }
  assert (sample = [] ↔ store = ∅) as Hempty.
  { rewrite <- map_to_list_empty_iff. split.
    - intros Hs. rewrite Hs in Hlen. simpl in Hlen.
      unfold scan_ids in Hlen. rewrite length_fmap in Hlen.
      destruct (map_to_list store); [done|simpl in Hlen; lia].
    - intros Hs. unfold scan_ids in Hlen. rewrite Hs in Hlen.
      by destruct sample. }
  assert (sample ≠ [] →
          ∃ cid fc, sample = [cid]
                    ∧ v1_random_fc_get rand store
                      = ret (cid, filter (λ kv, is_json_feature kv.2) fc))
    as Hret.
  { intros Hs. destruct (Hne Hs) as (cid & fc & Hsample & _ & Hfc).
    exists cid, fc. split; [done|].
    unfold v1_random_fc_get. fold sample. rewrite Hsample.
    unfold store_get. by rewrite Hfc. }
  split; [done|]. split; [done|].
  split; [|split].
  - split.
    + intros H404. destruct sample as [|c s] eqn:Hs; [done|].
      destruct Hret as (cid & fc & _ & Heq); [done|].
      rewrite Heq in H404. discriminate.
    + intros Hs. unfold v1_random_fc_get. fold sample. by rewrite Hs.
  - split.
    + intros H404. destruct sample as [|c s] eqn:Hs; [done|].
      destruct Hret as (cid & fc & _ & Heq); [done|].
      rewrite Heq in H404. discriminate.
    + intros Hs. unfold v1_random_fc_get. fold sample. by rewrite Hs.
  - intros Hs. destruct (Hne Hs) as (cid & fc & Hsample & Hin & Hfc).
    destruct (Hret Hs) as (cid' & fc' & Hsample' & Heq).
    exists cid, fc. repeat split; try done.
    rewrite Hsample in Hsample'. injection Hsample' as <-.
    unfold v1_random_fc_get. fold sample. rewrite Hsample.
    unfold store_get. by rewrite Hfc.
Qed.

Example v1_random_fc_get_empty :
  v1_random_fc_get (λ _, 0%nat) ∅ = raise (HTTPError 404).
Proof. reflexivity. Qed.

Example v1_random_fc_get_ex :
  v1_random_fc_get (λ i, i) ex_store
  = ret ("q"%string,
         {[ "#nilsimsa_all"%string := PyStringCounter {[+ "aa"%string +]};
            "title"%string := PyUnicode "aa" ]}).
Proof. vm_compute. reflexivity. Qed.

Example streaming_sample_ex :
  streaming_sample (λ i, (i * 2)%nat) [10; 11; 12; 13; 14; 15] 2 (Some 5%nat)
  = [10; 12].
Proof. vm_compute. reflexivity. Qed.

(** ** Closures over a stream *)

#[universes(polymorphic)]
Lemma after_all_app (p : Closure) (l1 l2 : list Cand) :
  after_all p (l1 ++ l2) = after_all (after_all p l1) l2.
Proof. revert p. induction l1 as [|c l1 IH]; intros p; simpl; [done|]. apply IH. Qed.

#[universes(polymorphic)]
Lemma decisions_app (p : Closure) (l1 l2 : list Cand) :
  decisions p (l1 ++ l2) = decisions p l1 ++ decisions (after_all p l1) l2.
Proof.
  revert p. induction l1 as [|c l1 IH]; intros p; simpl; [done|].
  by rewrite IH.
Qed.

#[universes(polymorphic)]
Lemma py_filter_app (p : Closure) (l1 l2 : list Cand) :
  py_filter p (l1 ++ l2) = py_filter p l1 ++ py_filter (after_all p l1) l2.
Proof.
  revert p. induction l1 as [|c l1 IH]; intros p; simpl; [done|].
  unfold after. destruct (call p c) as [[] p']; simpl; by rewrite IH.
Qed.

(** ** The near-duplicate filter *)

Section nilsimsa.
Context `{Nilsimsa}.
Variables (name : string) (threshold : Z).

Lemma near_duplicate_iff (acc fp : gset string) :
  near_duplicate threshold acc fp = true
  ↔ ∃ h1 h2, h1 ∈ acc ∧ h2 ∈ fp ∧ threshold ≤ compare_digests h1 h2.
Proof.
  unfold near_duplicate. rewrite bool_decide_eq_true. unfold set_Exists.
  split.
  - intros (h1 & Hh1 & h2 & Hh2 & Hle). by exists h1, h2.
  - intros (h1 & h2 & Hh1 & Hh2 & Hle). exists h1. split; [done|].
    by exists h2.
Qed.

Lemma accumulating_predicate_admit_all (st : NilsimsaState) (c : Cand) :
  seen st = None → accumulating_predicate name threshold st c = (true, st).
Proof. intros Hs. unfold accumulating_predicate. by rewrite Hs. Qed.

Lemma call_accumulating (st : NilsimsaState) (c : Cand) :
  call (accumulating_closure name threshold st) c
  = ((accumulating_predicate name threshold st c).1,
     accumulating_closure name threshold
       (accumulating_predicate name threshold st c).2).
Proof.
  unfold call, accumulating_closure. simpl.
  by destruct (accumulating_predicate name threshold st c).
Qed.

Lemma admits_accumulating (st : NilsimsaState) (c : Cand) :
  admits (accumulating_closure name threshold st) c
  = (accumulating_predicate name threshold st c).1.
Proof. unfold admits. by rewrite call_accumulating. Qed.

Lemma after_accumulating (st : NilsimsaState) (c : Cand) :
  after (accumulating_closure name threshold st) c
  = accumulating_closure name threshold
      (accumulating_predicate name threshold st c).2.
Proof. unfold after. by rewrite call_accumulating. Qed.

Lemma after_all_accumulating (st : NilsimsaState) (l : list Cand) :
  ∃ st', after_all (accumulating_closure name threshold st) l
         = accumulating_closure name threshold st'
         ∧ (seen st = None → st' = st).
Proof.
  revert st. induction l as [|c l IH]; intros st; simpl.
  - by exists st.
  - rewrite after_accumulating.
    destruct (IH (accumulating_predicate name threshold st c).2)
      as (st' & -> & Hnone).
    exists st'. split; [done|]. intros Hs.
    rewrite (accumulating_predicate_admit_all st c Hs) in Hnone.
    by apply Hnone.
Qed.

(** A rejection leaves the state as it was. *)
Lemma accumulating_predicate_reject (st : NilsimsaState) (c : Cand) :
  (accumulating_predicate name threshold st c).1 = false →
  (accumulating_predicate name threshold st c).2 = st.
Proof.
  unfold accumulating_predicate. destruct (seen st); [|done].
  case_bool_decide; [done|]. by destruct (near_duplicate _ _ _).
Qed.

(** An admission adds the candidate's fingerprints and nothing else. *)
Lemma accumulating_predicate_admit (st : NilsimsaState) (c : Cand) :
  (accumulating_predicate name threshold st c).1 = true →
  seen (accumulating_predicate name threshold st c).2
  = (λ acc, acc ∪ fingerprints name c.2) <$> seen st.
Proof.
  unfold accumulating_predicate.
  destruct (seen st) as [acc|] eqn:Hs; [|done].
  case_bool_decide as Hfp.
  - intros _. simpl. rewrite Hs, Hfp. by rewrite union_empty_r_L.
  - by destruct (near_duplicate _ _ _).
Qed.

Lemma accumulating_predicate_no_fingerprints (st : NilsimsaState)
    (c : Cand) :
  fingerprints name c.2 = ∅ →
  accumulating_predicate name threshold st c = (true, st).
Proof.
  intros Hfp. unfold accumulating_predicate. destruct (seen st); [|done].
  by rewrite bool_decide_true.
Qed.

Lemma decisions_admit_all (st : NilsimsaState) (l : list Cand) :
  seen st = None →
  decisions (accumulating_closure name threshold st) l
  = replicate (length l) true
  ∧ py_filter (accumulating_closure name threshold st) l = l.
Proof.
  intros Hs. induction l as [|c l [IH1 IH2]]; [done|].
  rewrite py_filter_cons. cbn [decisions length replicate].
  rewrite admits_accumulating, after_accumulating.
  rewrite accumulating_predicate_admit_all by done. simpl.
  by rewrite IH1, IH2.
Qed.

End nilsimsa.

Lemma nilsimsa_near_duplicates_closure `{Nilsimsa}
    (label_store : LabelStore) (store : gmap string (gmap string PyObj))
    (threshold : Z) (query_id : string) :
  ∃ st, nilsimsa_near_duplicates label_store store threshold query_id
        = accumulating_closure nilsimsa_feature_name threshold st
        ∧ seen st
          = (let fp := from_option (fingerprints nilsimsa_feature_name) ∅
                         (store !! query_id) in
             if bool_decide (fp = ∅) then None else Some fp).
Proof. eexists. split; reflexivity. Qed.

(** C2.  A candidate the near-duplicate filter rejects leaves the filter as
    it was: the fingerprints seen so far are the same before and after it.
    So the answers on the candidates after it are the answers they get when
    the rejected candidate is taken out of the stream, and the admitted
    candidates are the same. *)
Theorem nilsimsa_non_poisoning `{Nilsimsa} (label_store : LabelStore)
    (store : gmap string (gmap string PyObj)) (threshold : Z)
    (query_id : string) (pre post : list Cand) (D : Cand) :
  let p := nilsimsa_near_duplicates label_store store threshold query_id in
  admits (after_all p pre) D = false →
  ∃ st : NilsimsaState,
    after_all p pre
    = accumulating_closure nilsimsa_feature_name threshold st
    ∧ accumulating_predicate nilsimsa_feature_name threshold st D
      = (false, st)
    ∧ after_all p (pre ++ [D])
      = accumulating_closure nilsimsa_feature_name threshold st
    ∧ decisions p (pre ++ D :: post)
      = decisions p pre ++ false :: decisions (after_all p pre) post
    ∧ decisions p (pre ++ post)
      = decisions p pre ++ decisions (after_all p pre) post
    ∧ py_filter p (pre ++ D :: post) = py_filter p (pre ++ post).
Proof.
  intros p Hrej.
  destruct (nilsimsa_near_duplicates_closure label_store store threshold
              query_id) as (st0 & Hp & _).
  fold p in Hp.
  destruct (after_all_accumulating nilsimsa_feature_name threshold st0 pre)
    as (st & Hst & _).
  rewrite <- Hp in Hst. rewrite Hst in Hrej |- *.
  rewrite admits_accumulating in Hrej.
  pose proof (accumulating_predicate_reject _ _ _ _ Hrej) as Hsame.
  assert (after (accumulating_closure nilsimsa_feature_name threshold st) D
          = accumulating_closure nilsimsa_feature_name threshold st)
    as Hafter by (by rewrite after_accumulating, Hsame).
  exists st. split; [done|]. split.
  { by rewrite (surjective_pairing (accumulating_predicate _ _ _ _)),
      Hrej, Hsame. }
  split. { rewrite after_all_app, Hst. simpl. by rewrite Hafter. }
  split.
  { rewrite decisions_app, Hst. simpl.
    by rewrite admits_accumulating, Hrej, Hafter. }
  split. { by rewrite decisions_app, Hst. }
  rewrite !py_filter_app, Hst, py_filter_cons.
  by rewrite admits_accumulating, Hrej, Hafter.
Qed.

Lemma nilsimsa_non_poisoning_witness :
  let pre : list Cand := [("a"%string, ex_fc "bb")] in
  let post : list Cand := [("c"%string, ex_fc "aa"); ("d"%string, ex_fc "cc")] in
  let D : Cand := ("b"%string, ex_fc "bb") in
  let p := nilsimsa_near_duplicates ex_label_store ex_store 120 "q" in
  admits (after_all p pre) D = false
  ∧ ∃ st : NilsimsaState,
      after_all p pre = accumulating_closure nilsimsa_feature_name 120 st
      ∧ accumulating_predicate nilsimsa_feature_name 120 st D = (false, st)
      ∧ after_all p (pre ++ [D])
        = accumulating_closure nilsimsa_feature_name 120 st
      ∧ decisions p (pre ++ D :: post)
        = decisions p pre ++ false :: decisions (after_all p pre) post
      ∧ decisions p (pre ++ post)
        = decisions p pre ++ decisions (after_all p pre) post
      ∧ py_filter p (pre ++ D :: post) = py_filter p (pre ++ post).
Proof.
  split; [vm_compute; reflexivity|].
  apply (nilsimsa_non_poisoning ex_label_store ex_store 120 "q"
           [("a"%string, ex_fc "bb")]
           [("c"%string, ex_fc "aa"); ("d"%string, ex_fc "cc")]
           ("b"%string, ex_fc "bb")).
  vm_compute. reflexivity.
Defined.

Example nilsimsa_decisions_ex :
  let p := nilsimsa_near_duplicates ex_label_store ex_store 120 "q" in
  decisions p
    [("a"%string, ex_fc "bb"); ("b"%string, ex_fc "bb");
     ("c"%string, ex_fc "aa"); ("d"%string, ex_fc "cc");
     ("e"%string, ∅)]
  = [true; false; false; true; true].
Proof. vm_compute. reflexivity. Qed.

(** C3.  When the query's collection holds no fingerprint under the reserved
    feature name, every candidate of every stream is admitted; a collection
    without the feature holds no fingerprint; and a candidate whose own
    fingerprint set is empty is admitted wherever it comes in the stream,
    and leaves the filter as it was.  The filter is a total function: no
    case raises. *)
Theorem nilsimsa_fail_open `{Nilsimsa} (label_store : LabelStore)
    (store : gmap string (gmap string PyObj)) (threshold : Z)
    (query_id : string) :
  let p := nilsimsa_near_duplicates label_store store threshold query_id in
  (∀ fc, store !! query_id = Some fc →
         fingerprints nilsimsa_feature_name fc = ∅ →
         ∀ l, decisions p l = replicate (length l) true
              ∧ py_filter p l = l
              ∧ ∀ c, admits (after_all p l) c = true)
  ∧ (∀ fc : gmap string PyObj,
       fc !! nilsimsa_feature_name = None →
       fingerprints nilsimsa_feature_name fc = ∅)
  ∧ (∀ pre c, fingerprints nilsimsa_feature_name c.2 = ∅ →
              admits (after_all p pre) c = true
              ∧ after_all p (pre ++ [c]) = after_all p pre).
Proof.
  intros p.
  destruct (nilsimsa_near_duplicates_closure label_store store threshold
              query_id) as (st0 & Hp & Hseen).
  fold p in Hp. split; [|split].
  - intros fc Hfc Hfp l. rewrite Hfc in Hseen. simpl in Hseen.
    rewrite bool_decide_true in Hseen by done.
    rewrite Hp.
    destruct (decisions_admit_all nilsimsa_feature_name threshold st0 l Hseen)
      as [Hd Hf].
    split; [done|]. split; [done|]. intros c.
    destruct (after_all_accumulating nilsimsa_feature_name threshold st0 l)
      as (st & -> & Hst).
    rewrite (Hst Hseen), admits_accumulating.
    by rewrite accumulating_predicate_admit_all.
  - intros fc Hnone. unfold fingerprints. by rewrite Hnone.
  - intros pre c Hfp. rewrite Hp.
    destruct (after_all_accumulating nilsimsa_feature_name threshold st0 pre)
      as (st & Hst & _).
    rewrite after_all_app, Hst. simpl.
    rewrite admits_accumulating, after_accumulating.
    by rewrite accumulating_predicate_no_fingerprints.
Qed.

Example nilsimsa_fail_open_ex :
  let store : gmap string (gmap string PyObj) :=
    {[ "q"%string := {[ "title"%string := PyUnicode "no digest" ]} ]} in
  let p := nilsimsa_near_duplicates ex_label_store store 0 "q" in
  decisions p
    [("a"%string, ex_fc "bb"); ("b"%string, ex_fc "bb");
     ("c"%string, ex_fc "bb")]
  = [true; true; true].
Proof. vm_compute. reflexivity. Qed.

(** ** The update-logic test *)

Section update_logic.
Context `{Nilsimsa}.
Variable threshold : Z.

Lemma fingerprints_make_fc (text : string) :
  fingerprints nilsimsa_feature_name (make_fc text) = {[ hexdigest text ]}.
Proof.
  unfold fingerprints, make_fc, nilsimsa_feature_name.
  rewrite lookup_singleton_eq. apply set_eq. intros h.
  rewrite gmultiset_elem_of_dom, gmultiset_elem_of_singleton.
  by rewrite elem_of_singleton.
Qed.

(** A text whose digest scores below the threshold against every digest
    seen is admitted, and its digest is seen from then on. *)
Lemma accumulating_predicate_fresh (st : NilsimsaState)
    (acc : gset string) (c : Cand) (text : string) :
  seen st = Some acc → c.2 = make_fc text →
  (∀ h, h ∈ acc → compare_digests h (hexdigest text) < threshold) →
  accumulating_predicate nilsimsa_feature_name threshold st c
  = (true,
     MkNilsimsaState (Some (acc ∪ {[ hexdigest text ]})) (excluded st)).
Proof.
  intros Hs Hc Hlt. unfold accumulating_predicate.
  rewrite Hs, Hc, fingerprints_make_fc.
  rewrite bool_decide_false by set_solver.
  destruct (near_duplicate _ _ _) eqn:Hnd; [|done].
  apply near_duplicate_iff in Hnd as (h1 & h2 & Hh1 & Hh2 & Hle).
  apply elem_of_singleton in Hh2 as ->.
  specialize (Hlt h1 Hh1). lia.
Qed.

(** A text whose digest was seen and scores at least the threshold
    against itself is rejected. *)
Lemma accumulating_predicate_seen (st : NilsimsaState)
    (acc : gset string) (c : Cand) (text : string) :
  seen st = Some acc → c.2 = make_fc text →
  hexdigest text ∈ acc →
  threshold ≤ compare_digests (hexdigest text) (hexdigest text) →
  accumulating_predicate nilsimsa_feature_name threshold st c = (false, st).
Proof.
  intros Hs Hc Hin Hle. unfold accumulating_predicate.
  rewrite Hs, Hc, fingerprints_make_fc.
  rewrite bool_decide_false by set_solver.
  rewrite (proj2 (near_duplicate_iff _ _ _)); [done|].
  exists (hexdigest text), (hexdigest text).
  split; [done|]. split; [by apply elem_of_singleton|done].
Qed.

Lemma py_filter_all_seen (st : NilsimsaState) (acc : gset string)
    (cs : list Cand) :
  seen st = Some acc →
  Forall (λ c : Cand, ∃ text,
            c.2 = make_fc text ∧ hexdigest text ∈ acc
            ∧ threshold
              ≤ compare_digests (hexdigest text) (hexdigest text)) cs →
  py_filter (accumulating_closure nilsimsa_feature_name threshold st) cs
  = [].
Proof.
  intros Hs Hall. induction Hall as [|c cs (text & Hc & Hin & Hle) _ IH];
    [done|].
  rewrite py_filter_cons, admits_accumulating, after_accumulating.
  by rewrite (accumulating_predicate_seen st acc c text).
Qed.

Lemma py_filter_fresh (st : NilsimsaState) (acc : gset string) (c : Cand)
    (cs : list Cand) (text : string) :
  seen st = Some acc → c.2 = make_fc text →
  (∀ h, h ∈ acc → compare_digests h (hexdigest text) < threshold) →
  py_filter (accumulating_closure nilsimsa_feature_name threshold st)
    (c :: cs)
  = c :: py_filter
           (accumulating_closure nilsimsa_feature_name threshold
              (MkNilsimsaState (Some (acc ∪ {[ hexdigest text ]}))
                 (excluded st))) cs.
Proof.
  intros Hs Hc Hlt.
  rewrite py_filter_cons, admits_accumulating, after_accumulating.
  by rewrite (accumulating_predicate_fresh st acc c text).
Qed.

Lemma enumerate_fcs_texts (f : nat → nat) (texts l : list string) :
  l ⊆ texts →
  Forall (λ c : Cand, ∃ text, c.2 = make_fc text ∧ text ∈ texts)
    (imap (λ idx text, (py_str (Z.of_nat (f idx)), make_fc text)) l).
Proof.
  intros Hsub. apply Forall_forall. intros c Hc.
  apply elem_of_lookup_imap in Hc as (i & text & -> & Hl).
  exists text. split; [done|]. apply Hsub. by eapply list_elem_of_lookup_2.
Qed.

End update_logic.

Lemma concat_replicate_subseteq {A} (n : nat) (l : list A) :
  concat (replicate n l) ⊆ l.
Proof.
  induction n as [|n IH]; simpl; [apply list_subseteq_nil|].
  intros x [?|?]%elem_of_app; [done|by apply IH].
Qed.

(** C4.  In the update-logic test, 4000 collections are made from the four
    sentences repeated 1000 times, the first is the query, and the filter is
    made with threshold 120.  The digest and the score are those of the
    Nilsimsa library: when the digests of the four sentences score below
    120 against one another, and each scores at least 120 against itself,
    the filter admits exactly 3 of the 3999 candidates. *)
Theorem update_logic_admits_three `{Nilsimsa} (label_store : LabelStore)
    (store : gmap string (gmap string PyObj)) :
  (∀ i j ti tj, (i < j)%nat →
     near_duplicate_texts !! i = Some ti →
     near_duplicate_texts !! j = Some tj →
     compare_digests (hexdigest ti) (hexdigest tj) < 120) →
  (∀ t, t ∈ near_duplicate_texts →
        120 ≤ compare_digests (hexdigest t) (hexdigest t)) →
  length (enumerate_fcs (concat (replicate 1000 near_duplicate_texts)))
  = 4000%nat
  ∧ test_nilsimsa_near_duplicates_update_logic label_store store = 3%nat.
Proof.
  intros Hlt Hself. split.
  { unfold enumerate_fcs. rewrite length_imap, length_concat.
    vm_compute. reflexivity. }
  unfold test_nilsimsa_near_duplicates_update_logic, enumerate_fcs.
  assert (concat (replicate 1000 near_duplicate_texts)
          = near_duplicate_texts
              ++ concat (replicate 999 near_duplicate_texts)) as ->
    by reflexivity.
  pose proof (concat_replicate_subseteq 999 near_duplicate_texts) as Hrest.
  revert Hrest. generalize (concat (replicate 999 near_duplicate_texts)).
  intros rest Hrest.
  pose proof (Hlt 0 1 _ _ ltac:(lia) eq_refl eq_refl)%nat as H01.
  pose proof (Hlt 0 2 _ _ ltac:(lia) eq_refl eq_refl)%nat as H02.
  pose proof (Hlt 0 3 _ _ ltac:(lia) eq_refl eq_refl)%nat as H03.
  pose proof (Hlt 1 2 _ _ ltac:(lia) eq_refl eq_refl)%nat as H12.
  pose proof (Hlt 1 3 _ _ ltac:(lia) eq_refl eq_refl)%nat as H13.
  pose proof (Hlt 2 3 _ _ ltac:(lia) eq_refl eq_refl)%nat as H23.
  assert (Forall (λ t, 120 ≤ compare_digests (hexdigest t) (hexdigest t))
            near_duplicate_texts) as Hself'
    by (by apply Forall_forall).
  clear Hlt Hself. revert H01 H02 H03 H12 H13 H23 Hself' Hrest.
  unfold near_duplicate_texts.
  generalize "The quick brown fox jumps over the lazy dog."%string.
  generalize "The quick brown fox jumps over the lazy dogs."%string.
  generalize "The quick brown foxes jumped over the lazy dog."%string.
  generalize "The quick brown foxes jumped over the lazy dogs."%string.
  intros t3 t2 t1 t0 H01 H02 H03 H12 H13 H23 Hself Hrest.
  cbn [app]. rewrite !imap_cons.
  unfold run_filter_test, nilsimsa_near_duplicates, init_filter.
  rewrite lookup_insert_eq. cbn [from_option].
  rewrite fingerprints_make_fc.
  rewrite bool_decide_false by set_solver.
  erewrite (py_filter_fresh 120 _ _ _ _ t1); [|reflexivity|reflexivity|].
  2:{ intros h ->%elem_of_singleton. done. }
  erewrite (py_filter_fresh 120 _ _ _ _ t2); [|reflexivity|reflexivity|].
  2:{ intros h [->%elem_of_singleton| ->%elem_of_singleton]%elem_of_union;
        done. }
  erewrite (py_filter_fresh 120 _ _ _ _ t3); [|reflexivity|reflexivity|].
  2:{ intros h Hh. cbn [excluded] in Hh.
      repeat (apply elem_of_union in Hh as [Hh|Hh]);
        apply elem_of_singleton in Hh as ->; done. }
  erewrite py_filter_all_seen; [reflexivity|reflexivity|].
  eapply Forall_impl.
  { apply (enumerate_fcs_texts (λ i, S (S (S (S i)))) [t0; t1; t2; t3] rest
             Hrest). }
  intros c (text & Hc & Hin). exists text. split; [done|].
  rewrite Forall_forall in Hself. split; [|by apply Hself].
  cbn [excluded]. rewrite !elem_of_union, !elem_of_singleton.
  repeat (apply elem_of_cons in Hin as [->|Hin]); [tauto..|].
  by apply elem_of_nil in Hin.
Qed.

Lemma update_logic_admits_three_witness :
  (∀ i j ti tj, (i < j)%nat →
     near_duplicate_texts !! i = Some ti →
     near_duplicate_texts !! j = Some tj →
     @compare_digests nilsimsa_package
       (@hexdigest nilsimsa_package ti) (@hexdigest nilsimsa_package tj)
     < 120)
  ∧ (∀ t, t ∈ near_duplicate_texts →
          120 ≤ @compare_digests nilsimsa_package
                  (@hexdigest nilsimsa_package t)
                  (@hexdigest nilsimsa_package t))
  ∧ length (@enumerate_fcs nilsimsa_package
              (concat (replicate 1000 near_duplicate_texts)))
    = 4000%nat
  ∧ @test_nilsimsa_near_duplicates_update_logic nilsimsa_package
      ex_label_store ∅ = 3%nat.
Proof.
  assert (∀ i j ti tj, (i < j)%nat →
            near_duplicate_texts !! i = Some ti →
            near_duplicate_texts !! j = Some tj →
            @compare_digests nilsimsa_package
              (@hexdigest nilsimsa_package ti)
              (@hexdigest nilsimsa_package tj) < 120) as Hlt.
  { intros i j ti tj Hij Hi Hj.
    destruct i as [|[|[|[|i]]]]; simpl in Hi; try discriminate;
      destruct j as [|[|[|[|j]]]]; simpl in Hj; try discriminate;
      try lia; injection Hi as <-; injection Hj as <-;
      apply Z.ltb_lt; vm_compute; reflexivity. }
  assert (∀ t, t ∈ near_duplicate_texts →
               120 ≤ @compare_digests nilsimsa_package
                       (@hexdigest nilsimsa_package t)
                       (@hexdigest nilsimsa_package t)) as Hself.
  { intros t Hin. unfold near_duplicate_texts in Hin.
    repeat (apply elem_of_cons in Hin as [->|Hin]);
      [apply Z.leb_le; vm_compute; reflexivity..|].
    by apply elem_of_nil in Hin. }
  split; [exact Hlt|]. split; [exact Hself|].
  exact (@update_logic_admits_three nilsimsa_package ex_label_store ∅
           Hlt Hself).
Defined.

(** The digests of the four sentences and their scores, as the package
    gives them: no two of the sentences reach 120, and all are above 0. *)
Example near_duplicate_texts_digests :
  nilsimsa_hexdigest <$> near_duplicate_texts
  = ["82b2b4ae03001086d100c662ab88583545c14ae760282108390a2928020520db";
     "02b0b4ae0b021086d900c660ab88503545c14ae760282108390a2928420124db";
     "a292b4ae020550868162ce62f898ced155c0c9f7602a2380382a2120126500db";
     "32b2b4ae0a0550868962ce60f898c6d155c049f7602a2380392a2120526104db"]%string.
Proof. vm_compute. reflexivity. Qed.

Example near_duplicate_texts_scores :
  (λ a, (λ b, nilsimsa_compare_digests (nilsimsa_hexdigest a)
                (nilsimsa_hexdigest b)) <$> near_duplicate_texts)
    <$> near_duplicate_texts
  = [[128; 118; 85; 79]; [118; 128; 75; 85];
     [85; 75; 128; 116]; [79; 85; 116; 128]].
Proof. vm_compute. reflexivity. Qed.

(** The basic test: with threshold 0 the three other sentences are all
    rejected. *)
Example test_basic_rejects_all :
  @test_nilsimsa_near_duplicates_basic nilsimsa_package ex_label_store ∅
  = 0%nat.
Proof. vm_compute. reflexivity. Qed.


(** ** Reading integers *)

Example py_int_ex1 : py_int "42" = Some 42.
Proof. reflexivity. Qed.

Example py_int_ex2 : py_int " -7 " = Some (-7).
Proof. reflexivity. Qed.

Example py_int_ex3 : py_int "12a" = None ∧ py_int "" = None.
Proof. split; reflexivity. Qed.

Example py_str_ex : py_str 2 = "2"%string ∧ py_str (-3) = "-3"%string.
Proof. split; reflexivity. Qed.


(** * Further properties of the code *)

(** ** The conjunction as a pipeline *)

#[universes(polymorphic)]
Lemma py_filter_lambda_all_nil (l : list Cand) :
  py_filter (lambda_all []) l = l.
Proof.
  induction l as [|c l IH]; [done|].
  rewrite py_filter_cons, admits_lambda_all, after_lambda_all. simpl.
  by rewrite IH.
Qed.

#[universes(polymorphic)]
Lemma py_filter_lambda_all_cons (p : Closure) (ps : list Closure)
    (l : list Cand) :
  py_filter (lambda_all (p :: ps)) l
  = py_filter (lambda_all ps) (py_filter p l).
Proof.
  revert p ps. induction l as [|c l IH]; intros p ps; [done|].
  rewrite (py_filter_cons (lambda_all (p :: ps))).
  rewrite admits_lambda_all, after_lambda_all, py_all_cons.
  rewrite (py_filter_cons p).
  destruct (admits p c); cbn [fst snd app].
  - rewrite (py_filter_cons (lambda_all ps)).
    rewrite admits_lambda_all, after_lambda_all. by rewrite IH.
  - by rewrite IH.
Qed.

(** X1.  Filtering a stream with the conjunction of the predicates is
    filtering it with the first predicate, then what is left with the
    second, and so on: a predicate is only ever called on the candidates
    that the predicates before it admitted, and it keeps its state between
    those calls. *)
Theorem py_filter_lambda_all (preds : list Pred) (l : list Cand) :
  py_filter (lambda_all preds) l
  = foldl (λ kept (p : Pred), py_filter p kept) l preds.
Proof.
  revert l. induction preds as [|p preds IH]; intros l; simpl.
  - apply py_filter_lambda_all_nil.
  - rewrite py_filter_lambda_all_cons. apply IH.
Qed.

Example py_filter_lambda_all_ex :
  let p := nilsimsa_near_duplicates ex_label_store ex_store 120 "q" in
  let q := already_labeled ex_label_store "q" in
  let l : list Cand :=
    [("a"%string, ex_fc "bb"); ("b"%string, ex_fc "cc");
     ("c"%string, ex_fc "bb")] in
  (py_filter (lambda_all [p; q]) l).*1 = ["b"%string]
  ∧ (py_filter (lambda_all [q; p]) l).*1 = ["b"; "c"]%string.
Proof. split; vm_compute; reflexivity. Qed.

(** X2.  The conjunction stops at the first predicate that rejects: the
    predicates before it and that one have been called, the ones after it
    have not and are as they were. *)
Theorem py_all_short_circuit (pre post : list Pred) (p : Pred) (c : Cand) :
  Forall (λ q : Pred, admits q c = true) pre →
  admits p c = false →
  py_all (pre ++ p :: post) c
  = (false, ((λ q : Pred, after q c) <$> pre) ++ after p c :: post).
Proof.
  intros Hpre Hp. induction Hpre as [|q pre Hq _ IH].
  - cbn [app fmap list_fmap]. by rewrite py_all_cons, Hp.
  - cbn [app]. rewrite py_all_cons, Hq, IH. by rewrite fmap_cons.
Qed.

Lemma py_all_short_circuit_witness :
  let p := nilsimsa_near_duplicates ex_label_store ex_store 120 "q" in
  let q := already_labeled ex_label_store "q" in
  let c : Cand := ("a"%string, ex_fc "bb") in
  py_all ([] ++ q :: [p]) c
  = (false, ((λ q : Pred, after q c) <$> []) ++ after q c :: [p]).
Proof.
  apply (py_all_short_circuit []
           [nilsimsa_near_duplicates ex_label_store ex_store 120 "q"]
           (already_labeled ex_label_store "q")
           ("a"%string, ex_fc "bb")).
  - constructor.
  - vm_compute. reflexivity.
Defined.

(** ** More of the search route *)

(** X3.  A request that names no filter still needs the registry to hold
    [already_labeled]: when it does not, the request aborts with 404, and
    nothing is created or searched, whatever the engine. *)
Theorem v1_search_default_filter_missing (request : Request)
    (config : Config) (search_engines : gmap string (Config → Engine))
    (filter_preds : gmap string (Config → string → Pred))
    (cid engine_name : string) :
  Query.getall "filter" (query request) = [] →
  filter_preds !! "already_labeled"%string = None →
  v1_search request config search_engines filter_preds cid engine_name
  = ([], raise (HTTPError 404)).
Proof.
  intros Hnames Hnone. unfold v1_search, Query.pop. cbv beta iota zeta.
  destruct (search_engines !! engine_name) as [se|]; [|done].
  rewrite filter_names_of_remove. unfold filter_names_of. rewrite Hnames.
  simpl. by rewrite Hnone.
Qed.

Lemma v1_search_default_filter_missing_witness :
  v1_search (ex_request [("limit", "5")]%string) ex_config ex_search_engines
    (delete "already_labeled"%string ex_filter_preds) "q" "scan"
  = ([], raise (HTTPError 404)).
Proof.
  apply (v1_search_default_filter_missing (ex_request [("limit", "5")]%string)
           ex_config ex_search_engines
           (delete "already_labeled"%string ex_filter_preds) "q" "scan");
    reflexivity.
Defined.

Lemma to_dict_lookup_aux (q : Query.t) (d : gmap string string)
    (key : string) :
  foldl (λ d kv, <[kv.1 := kv.2]> d) d q !! key
  = match Query.get key q with
    | Some v => Some v
    | None => d !! key
    end.
Proof.
  revert d. induction q as [|[k v] q IH] using rev_ind; intros d; [done|].
  rewrite foldl_app. simpl. unfold Query.get, Query.getall in *.
  rewrite filter_app, fmap_app, filter_cons, filter_nil. simpl.
  destruct (decide (k = key)) as [->|Hne]; simpl.
  - rewrite last_snoc. apply lookup_insert_eq.
  - rewrite app_nil_r, lookup_insert_ne by done. apply IH.
Qed.

(** [dict(request.query)] gives a key its most recent value. *)
Lemma to_dict_lookup (q : Query.t) (key : string) :
  Query.to_dict q !! key = Query.get key q.
Proof.
  unfold Query.to_dict. rewrite to_dict_lookup_aux, lookup_empty.
  by destruct (Query.get key q).
Qed.

Lemma get_remove_eq (key : string) (q : Query.t) :
  Query.get key (Query.remove key q) = None.
Proof. unfold Query.get. by rewrite getall_remove_eq. Qed.

(** X4.  Once the engine and the filters are found, the engine is called
    with the other parameters of the query as keyword arguments, each with
    its most recent value; the [filter] and [omit_fc] parameters are not
    passed on, and [limit] and [filter_pred] are never taken from the
    query as they are. *)
Theorem v1_search_kwargs (request : Request) (config : Config)
    (search_engines : gmap string (Config → Engine))
    (filter_preds : gmap string (Config → string → Pred))
    (cid engine_name : string) (se : Config → Engine)
    (fs : list (Config → string → Pred)) :
  search_engines !! engine_name = Some se →
  mapM (M := option) (λ n : string, filter_preds !! n)
    (filter_names_of (query request)) = Some fs →
  ∃ (omit_fc : bool) (kwargs : gmap string string)
    (filter_pred : FilterPred) (limit : Z),
    (v1_search request config search_engines filter_preds cid
       engine_name).2
    = respond omit_fc (se config cid kwargs filter_pred limit)
    ∧ (∀ key, key ∈ ["filter"; "omit_fc"; "limit"; "filter_pred"]%string →
              kwargs !! key = None)
    ∧ (∀ key, key ∉ ["filter"; "omit_fc"; "limit"; "filter_pred"]%string →
              kwargs !! key = Query.get key (query request)).
Proof.
  intros Hse Hfs.
  pose proof (v1_search_resolved request config search_engines filter_preds
                cid engine_name se fs Hse Hfs) as Heq.
  cbv zeta in Heq. do 4 eexists. rewrite Heq. cbn [snd].
  split; [reflexivity|]. split.
  - intros key Hkey.
    destruct (decide (key = "limit"%string)) as [->|Hl];
      [by rewrite lookup_delete_eq|].
    rewrite lookup_delete_ne by done.
    destruct (decide (key = "filter_pred"%string)) as [->|Hf];
      [by rewrite lookup_delete_eq|].
    rewrite lookup_delete_ne by done. rewrite to_dict_lookup.
    destruct (decide (key = "filter"%string)) as [->|Hfi];
      [by rewrite get_remove_eq|].
    rewrite get_remove_ne by done.
    destruct (decide (key = "omit_fc"%string)) as [->|Ho];
      [by rewrite get_remove_eq|].
    exfalso. repeat (apply elem_of_cons in Hkey as [?|Hkey]; [done|]).
    by apply elem_of_nil in Hkey.
  - intros key Hkey.
    assert (key ≠ "filter"%string ∧ key ≠ "omit_fc"%string
            ∧ key ≠ "limit"%string ∧ key ≠ "filter_pred"%string)
      as (H1 & H2 & H3 & H4).
    { repeat split; intros ->; apply Hkey;
        eauto using list_elem_of_here, list_elem_of_further. }
    rewrite !lookup_delete_ne by done.
    rewrite to_dict_lookup. by rewrite !get_remove_ne.
Qed.

Lemma v1_search_kwargs_witness :
  let request :=
    ex_request [("topic", "x"); ("omit_fc", "1"); ("topic", "y")]%string in
  ∃ (omit_fc : bool) (kwargs : gmap string string)
    (filter_pred : FilterPred) (limit : Z),
    (v1_search request ex_config ex_search_engines ex_filter_preds "q"
       "scan").2
    = respond omit_fc (ex_engine ex_config "q" kwargs filter_pred limit)
    ∧ (∀ key, key ∈ ["filter"; "omit_fc"; "limit"; "filter_pred"]%string →
              kwargs !! key = None)
    ∧ (∀ key, key ∉ ["filter"; "omit_fc"; "limit"; "filter_pred"]%string →
              kwargs !! key = Query.get key (query request)).
Proof.
  apply (v1_search_kwargs
           (ex_request [("topic", "x"); ("omit_fc", "1"); ("topic", "y")]%string)
           ex_config ex_search_engines ex_filter_preds "q" "scan" ex_engine
           [λ config, already_labeled (cfg_label_store config)]);
    reflexivity.
Defined.

Lemma deref_not_ref (heap : gmap nat (gmap string PyObj)) (o : PyObj) :
  (∀ a, o ≠ PyRef a) → deref heap o = o.
Proof. intros Ho. destruct o; try done. by destruct (Ho a). Qed.

(** What an assignment [result[key] = val] that does not raise leaves. *)
Lemma setitem_ok (heap heap' : gmap nat (gmap string PyObj)) (o r : PyObj)
    (key : string) (val : PyObj) :
  setitem heap o key val = ret (heap', r) →
  py_getitem (deref heap' r) key = Some val
  ∧ (∀ k, k ≠ key →
          py_getitem (deref heap' r) k = py_getitem (deref heap o) k)
  ∧ (∀ b, o ≠ PyRef b → heap' !! b = heap !! b)
  ∧ (∀ b k, k ≠ key →
            py_getitem (deref heap' (PyRef b)) k
            = py_getitem (deref heap (PyRef b)) k)
  ∧ (∀ a, o = PyRef a → r = PyRef a)
  ∧ ((∀ a, o ≠ PyRef a) → ∀ a, r ≠ PyRef a).
Proof.
  unfold setitem, raise, ret. destruct o; try done.
  - intros [= <- <-]. simpl. rewrite lookup_insert_eq.
    repeat split; try done. intros k Hk. by rewrite lookup_insert_ne.
  - intros [= <- <-]. simpl. rewrite lookup_insert_eq.
    repeat split; try done. intros k Hk. by rewrite lookup_insert_ne.
  - destruct (heap !! a) as [d|] eqn:Ha; [|done].
    intros [= <- <-]. simpl. rewrite lookup_insert_eq. simpl.
    rewrite lookup_insert_eq. rewrite Ha. simpl.
    split; [done|]. split. { intros k Hk. by rewrite lookup_insert_ne. }
    split. { intros b Hb. rewrite lookup_insert_ne; [done|]. by intros ->. }
    split.
    { intros b k Hk. destruct (decide (b = a)) as [->|Hne].
      - rewrite lookup_insert_eq, Ha. simpl. by rewrite lookup_insert_ne.
      - by rewrite lookup_insert_ne. }
    split; [done|]. intros Hno. by destruct (Hno a).
Qed.

(** What a tuple that is transformed becomes: the info of the tuple, the
    empty one for a pair, with [content_id] set to the first element, and,
    unless the collection is omitted, [fc] set to the JSON of the second.
    An info dictionary of the heap is changed in place, and nothing else of
    the heap is. *)
Lemma transform_ok (omit_fc : bool) (heap heap' : gmap nat (gmap string PyObj))
    (t : list PyObj) (r : PyObj) :
  transform omit_fc heap t = ret (heap', r) →
  ∃ cid fc info,
    (t = [cid; fc] ∧ info = PyDict ∅ ∨ t = [cid; fc; info])
    ∧ py_getitem (deref heap' r) "content_id" = Some cid
    ∧ (if omit_fc
       then py_getitem (deref heap' r) "fc"
            = py_getitem (deref heap info) "fc"
       else ∃ j, py_getitem (deref heap' r) "fc" = Some (PyDict j)
                 ∧ ((∀ b, fc ≠ PyRef b) → fc_to_json fc = ret j))
    ∧ (∀ k, k ≠ "content_id"%string → k ≠ "fc"%string →
            py_getitem (deref heap' r) k = py_getitem (deref heap info) k)
    ∧ (∀ b, info ≠ PyRef b → heap' !! b = heap !! b)
    ∧ (∀ b k, k ≠ "content_id"%string →
              omit_fc = true ∨ k ≠ "fc"%string →
              py_getitem (deref heap' (PyRef b)) k
              = py_getitem (deref heap (PyRef b)) k)
    ∧ (∀ a, info = PyRef a → r = PyRef a)
    ∧ ((∀ a, info ≠ PyRef a) → ∀ a, r ≠ PyRef a).
Proof.
  intros Ht.
  assert (∃ cid fc info,
            (t = [cid; fc] ∧ info = PyDict ∅ ∨ t = [cid; fc; info])
            ∧ ('(heap1, result) ← setitem heap info "content_id" cid;
               if omit_fc then ret (heap1, result)
               else
                 fcj ← fc_to_json (deref heap1 fc);
                 setitem heap1 result "fc" (PyDict fcj))
              = ret (heap', r)) as (cid & fc & info & Hshape & Hbody).
  { unfold transform in Ht.
    destruct t as [|cid [|fc [|info [|x t]]]]; try done.
    - exists cid, fc, (PyDict ∅). split; [by left|exact Ht].
    - exists cid, fc, info. split; [by right|exact Ht]. }
  exists cid, fc, info. split; [done|]. clear Ht Hshape.
  destruct (setitem heap info "content_id" cid) as [e|[heap1 r1]] eqn:H1;
    [done|].
  apply setitem_ok in H1 as (Hc & Hk & Hfr & Hhk & Hr & Hnr).
  simpl in Hbody. destruct omit_fc.
  - injection Hbody as <- <-.
    split; [done|]. split; [by apply Hk|].
    split. { intros k Hk1 Hk2. by apply Hk. }
    split; [done|].
    split. { intros b k Hk1 _. by apply Hhk. }
    done.
  - destruct (fc_to_json (deref heap1 fc)) as [e|j] eqn:Hj; [done|].
    simpl in Hbody.
    apply setitem_ok in Hbody as (Hc2 & Hk2 & Hfr2 & Hhk2 & Hr2 & Hnr2).
    split. { rewrite Hk2 by done. done. }
    split.
    { exists j. split; [done|]. intros Hfc.
      by rewrite deref_not_ref in Hj. }
    split. { intros k Hk1 Hk3. rewrite Hk2 by done. by apply Hk. }
    split.
    { intros b Hb. rewrite Hfr2; [by apply Hfr|].
      intros ->. destruct info; try (by destruct (Hnr ltac:(done) b)).
      specialize (Hr _ eq_refl) as [= ->]. done. }
    split.
    { intros b k Hk1 [?|Hk3]; [done|]. rewrite Hhk2 by done. by apply Hhk. }
    split.
    { intros a ->. specialize (Hr _ eq_refl) as ->. by apply Hr2. }
    intros Hno. apply Hnr2. by apply Hnr.
Qed.

(** The loop, tuple by tuple: the object of a tuple with an info of its
    own, and the dictionary of the heap that a tuple refers to. *)
Lemma transform_all_ok (omit_fc : bool) (ts : list (list PyObj)) :
  ∀ (heap heap' : gmap nat (gmap string PyObj)) (rs : list PyObj),
  transform_all omit_fc heap ts = ret (heap', rs) →
  length rs = length ts
  ∧ (∀ b, (∀ t, t ∈ ts → t !! 2%nat ≠ Some (PyRef b)) →
          heap' !! b = heap !! b)
  ∧ (∀ b k, k ≠ "content_id"%string → omit_fc = true ∨ k ≠ "fc"%string →
            py_getitem (deref heap' (PyRef b)) k
            = py_getitem (deref heap (PyRef b)) k)
  ∧ ∀ (i : nat) (t : list PyObj), ts !! i = Some t →
      ∃ r cid fc,
        rs !! i = Some r
        ∧ t !! 0%nat = Some cid ∧ t !! 1%nat = Some fc
        ∧ (length t = 2 ∨ length t = 3)%nat
        ∧ ((∀ a, t !! 2%nat ≠ Some (PyRef a)) →
           (∀ h, deref h r = r)
           ∧ py_getitem r "content_id" = Some cid
           ∧ (if omit_fc
              then py_getitem r "fc"
                   = t !! 2%nat ≫= λ info, py_getitem info "fc"
              else ∃ j, py_getitem r "fc" = Some (PyDict j)
                        ∧ ((∀ b, fc ≠ PyRef b) → fc_to_json fc = ret j))
           ∧ ∀ key, key ≠ "content_id"%string → key ≠ "fc"%string →
                    py_getitem r key
                    = t !! 2%nat ≫= λ info, py_getitem info key)
        ∧ (∀ a, t !! 2%nat = Some (PyRef a) →
           r = PyRef a
           ∧ ((∀ (k : nat) (t' : list PyObj),
                 (i < k)%nat → ts !! k = Some t' →
                 t' !! 2%nat ≠ Some (PyRef a)) →
              py_getitem (deref heap' (PyRef a)) "content_id" = Some cid
              ∧ (omit_fc = false →
                 ∃ j, py_getitem (deref heap' (PyRef a)) "fc"
                      = Some (PyDict j)
                      ∧ ((∀ b, fc ≠ PyRef b) → fc_to_json fc = ret j)))).
Proof.
  induction ts as [|t ts IH]; intros heap heap' rs; simpl.
  { intros [= <- <-]. repeat split; try done. }
  destruct (transform omit_fc heap t) as [e|[heap1 r1]] eqn:Ht; [done|].
  simpl.
  destruct (transform_all omit_fc heap1 ts) as [e|[heap2 rs2]] eqn:Hts;
    [done|].
  simpl. intros [= <- <-].
  destruct (IH _ _ _ Hts) as (Hlen & Hframe & Hkeys & Hidx).
  destruct (transform_ok _ _ _ _ _ Ht)
    as (cid & fc & info & Hshape & Hcid & Hfc & Hoth & Hfr & Hhk & Hr & Hnr).
  assert (t !! 0%nat = Some cid ∧ t !! 1%nat = Some fc
          ∧ (length t = 2 ∨ length t = 3)%nat
          ∧ (∀ b, t !! 2%nat ≠ Some (PyRef b) → info ≠ PyRef b)
          ∧ (∀ b, t !! 2%nat = Some (PyRef b) → info = PyRef b)
          ∧ ((∀ a, info ≠ PyRef a) →
             ∀ key, py_getitem (deref heap info) key
                    = t !! 2%nat ≫= λ info, py_getitem info key))
    as (Ht0 & Ht1 & Htl & Hinfo & Hinfo' & Hown).
  { destruct Hshape as [[-> ->] | ->]; simpl.
    - repeat split; auto; try done.
    - repeat split; auto.
      + intros b Hb ->. by apply Hb.
      + by intros b [= ->].
      + intros Hno key. by rewrite deref_not_ref. }
  split; [simpl; by rewrite Hlen|].
  split.
  { intros b Hb. rewrite Hframe.
    - apply Hfr. apply Hinfo. apply Hb. by left.
    - intros t' Hin. apply Hb. by right. }
  split.
  { intros b k Hk1 Hk2. etrans; [by apply Hkeys|by apply Hhk]. }
  intros [|i] t' Hi; simpl in Hi.
  - injection Hi as <-. exists r1, cid, fc. simpl.
    split; [done|]. split; [done|]. split; [done|]. split; [done|].
    split.
    + intros Hno.
      assert (∀ a, info ≠ PyRef a) as Hno' by (intros a; by apply Hinfo).
      assert (∀ h, deref h r1 = r1) as Hd.
      { intros h. apply deref_not_ref. by apply Hnr. }
      rewrite Hd in Hcid, Hoth.
      split; [done|]. split; [done|].
      split.
      * destruct omit_fc.
        -- rewrite Hd in Hfc. rewrite Hfc. by apply Hown.
        -- destruct Hfc as (j & Hj1 & Hj2). rewrite Hd in Hj1. by exists j.
      * intros key Hk1 Hk2. rewrite Hoth by done. by apply Hown.
    + intros a Ha. apply Hinfo' in Ha. specialize (Hr _ Ha) as ->.
      split; [done|]. intros Hlast.
      assert (deref heap2 (PyRef a) = deref heap1 (PyRef a)) as Hsame.
      { unfold deref. rewrite Hframe; [done|].
        intros t' Hin. apply list_elem_of_lookup in Hin as [k Hk].
        apply (Hlast (S k)); [lia|done]. }
      change (py_getitem (deref heap2 (PyRef a)) "content_id" = Some cid
              ∧ (omit_fc = false →
                 ∃ j, py_getitem (deref heap2 (PyRef a)) "fc"
                      = Some (PyDict j)
                      ∧ ((∀ b, fc ≠ PyRef b) → fc_to_json fc = ret j))).
      rewrite Hsame. split; [done|]. intros ->. done.
  - destruct (Hidx _ _ Hi)
      as (r & cid' & fc' & Hri & Hc0 & Hc1 & Hcl & Hown' & Hshared).
    exists r, cid', fc'. simpl.
    split; [done|]. split; [done|]. split; [done|]. split; [done|].
    split; [done|].
    intros a Ha. destruct (Hshared _ Ha) as [-> Hlast'].
    split; [done|]. intros Hlast. apply Hlast'.
    intros k t'' Hk Hk'. apply (Hlast (S k)); [lia|done].
Qed.

(** X5.  A response that is returned holds one object for each tuple of the
    engine, in the engine's order, and the other keys of the engine's
    dictionary as they were.  The object of a tuple whose info is its own,
    no dictionary shared through the heap, is that info, the empty one for a
    pair, with [content_id] set to the tuple's first element, over whatever
    the info held there, and, unless [omit_fc] is set, with [fc] set to the
    JSON of the tuple's collection; with [omit_fc] the collection is not
    looked at.  Tuples that carry the same info dictionary get the same
    object in the response: the other keys of the dictionary as the engine
    left them, and the [content_id], and the [fc] unless omitted, of the
    last of these tuples. *)
Theorem respond_results (omit_fc : bool)
    (found : gmap nat (gmap string PyObj) * SearchResults (list PyObj))
    (response : SearchResults PyObj) :
  respond omit_fc found = ret response →
  others response = others found.2
  ∧ length (results response) = length (results found.2)
  ∧ ∀ (i : nat) (t : list PyObj), results found.2 !! i = Some t →
      ∃ r cid fc,
        results response !! i = Some r
        ∧ t !! 0%nat = Some cid ∧ t !! 1%nat = Some fc
        ∧ (length t = 2 ∨ length t = 3)%nat
        ∧ ((∀ a, t !! 2%nat ≠ Some (PyRef a)) →
           py_getitem r "content_id" = Some cid
           ∧ (if omit_fc
              then py_getitem r "fc"
                   = t !! 2%nat ≫= λ info, py_getitem info "fc"
              else ∃ j, py_getitem r "fc" = Some (PyDict j)
                        ∧ ((∀ b, fc ≠ PyRef b) → fc_to_json fc = ret j))
           ∧ ∀ key, key ≠ "content_id"%string → key ≠ "fc"%string →
                    py_getitem r key
                    = t !! 2%nat ≫= λ info, py_getitem info key)
        ∧ (∀ a, t !! 2%nat = Some (PyRef a) →
           (∀ (k : nat) (t' : list PyObj),
              results found.2 !! k = Some t' →
              t' !! 2%nat = Some (PyRef a) →
              results response !! k = Some r)
           ∧ (∀ key, key ≠ "content_id"%string →
                     omit_fc = true ∨ key ≠ "fc"%string →
                     py_getitem r key
                     = py_getitem (deref found.1 (PyRef a)) key)
           ∧ ((∀ (k : nat) (t' : list PyObj),
                 (i < k)%nat → results found.2 !! k = Some t' →
                 t' !! 2%nat ≠ Some (PyRef a)) →
              py_getitem r "content_id" = Some cid
              ∧ (omit_fc = false →
                 ∃ j, py_getitem r "fc" = Some (PyDict j)
                      ∧ ((∀ b, fc ≠ PyRef b) → fc_to_json fc = ret j)))).
Proof.
  unfold respond.
  destruct (transform_all omit_fc found.1 (results found.2))
    as [e|[heap' rs]] eqn:Hm; [done|].
  simpl. intros [= <-]. simpl.
  destruct (transform_all_ok _ _ _ _ _ Hm) as (Hlen & _ & Hkeys & Hidx).
  split; [done|]. split; [by rewrite length_fmap|].
  intros i t Ht.
  destruct (Hidx _ _ Ht) as (r & cid & fc & Hr & H0 & H1 & Hl & Hown & Hsh).
  exists (deref heap' r), cid, fc.
  split. { by rewrite list_lookup_fmap, Hr. }
  split; [done|]. split; [done|]. split; [done|].
  split.
  - intros Hno. destruct (Hown Hno) as (Hd & Hrest). by rewrite Hd.
  - intros a Ha. destruct (Hsh _ Ha) as [-> Hlast].
    split.
    { intros k t' Hk Ha'.
      destruct (Hidx _ _ Hk) as (r' & ? & ? & Hr' & _ & _ & _ & _ & Hsh').
      destruct (Hsh' _ Ha') as [-> _]. by rewrite list_lookup_fmap, Hr'. }
    split; [by apply Hkeys|]. done.
Qed.

Lemma respond_results_witness :
  let found :=
    ({[ 0%nat := {[ "score"%string := PyInt 7 ]} ]},
     MkSearchResults
       [[PyStr "a"; PyFC (ex_fc "aa"); PyRef 0];
        [PyStr "b"; PyNone;
         PyDict {[ "score"%string := PyInt 7;
                   "content_id"%string := PyStr "other" ]}];
        [PyStr "c"; PyNone; PyRef 0]]
       {[ "took"%string := PyInt 3 ]}) in
  let response :=
    MkSearchResults
      [PyDict {[ "score"%string := PyInt 7;
                 "content_id"%string := PyStr "c" ]};
       PyDict {[ "score"%string := PyInt 7;
                 "content_id"%string := PyStr "b" ]};
       PyDict {[ "score"%string := PyInt 7;
                 "content_id"%string := PyStr "c" ]}]
      {[ "took"%string := PyInt 3 ]} in
  others response = others found.2
  ∧ length (results response) = length (results found.2)
  ∧ ∀ (i : nat) (t : list PyObj), results found.2 !! i = Some t →
      ∃ r cid fc,
        results response !! i = Some r
        ∧ t !! 0%nat = Some cid ∧ t !! 1%nat = Some fc
        ∧ (length t = 2 ∨ length t = 3)%nat
        ∧ ((∀ a, t !! 2%nat ≠ Some (PyRef a)) →
           py_getitem r "content_id" = Some cid
           ∧ (if true
              then py_getitem r "fc"
                   = t !! 2%nat ≫= λ info, py_getitem info "fc"
              else ∃ j, py_getitem r "fc" = Some (PyDict j)
                        ∧ ((∀ b, fc ≠ PyRef b) → fc_to_json fc = ret j))
           ∧ ∀ key, key ≠ "content_id"%string → key ≠ "fc"%string →
                    py_getitem r key
                    = t !! 2%nat ≫= λ info, py_getitem info key)
        ∧ (∀ a, t !! 2%nat = Some (PyRef a) →
           (∀ (k : nat) (t' : list PyObj),
              results found.2 !! k = Some t' →
              t' !! 2%nat = Some (PyRef a) →
              results response !! k = Some r)
           ∧ (∀ key, key ≠ "content_id"%string →
                     true = true ∨ key ≠ "fc"%string →
                     py_getitem r key
                     = py_getitem (deref found.1 (PyRef a)) key)
           ∧ ((∀ (k : nat) (t' : list PyObj),
                 (i < k)%nat → results found.2 !! k = Some t' →
                 t' !! 2%nat ≠ Some (PyRef a)) →
              py_getitem r "content_id" = Some cid
              ∧ (true = false →
                 ∃ j, py_getitem r "fc" = Some (PyDict j)
                      ∧ ((∀ b, fc ≠ PyRef b) → fc_to_json fc = ret j)))).
Proof.
  apply (respond_results true
           ({[ 0%nat := {[ "score"%string := PyInt 7 ]} ]},
            MkSearchResults
              [[PyStr "a"; PyFC (ex_fc "aa"); PyRef 0];
               [PyStr "b"; PyNone;
                PyDict {[ "score"%string := PyInt 7;
                          "content_id"%string := PyStr "other" ]}];
               [PyStr "c"; PyNone; PyRef 0]]
              {[ "took"%string := PyInt 3 ]})).
  vm_compute. reflexivity.
Defined.

(** With the collections kept, the shared dictionary also carries the
    collection of the last tuple that refers to it. *)
Example respond_shared_fc :
  respond false
    ({[ 0%nat := {[ "score"%string := PyInt 7 ]} ]},
     MkSearchResults
       [[PyStr "a"; PyFC {[ "name"%string := PyUnicode "A" ]}; PyRef 0];
        [PyStr "c"; PyFC {[ "name"%string := PyUnicode "C" ]}; PyRef 0]] ∅)
  = ret (MkSearchResults
           [PyDict {[ "score"%string := PyInt 7;
                      "content_id"%string := PyStr "c";
                      "fc"%string
                      := PyDict {[ "name"%string := PyUnicode "C" ]} ]};
            PyDict {[ "score"%string := PyInt 7;
                      "content_id"%string := PyStr "c";
                      "fc"%string
                      := PyDict {[ "name"%string := PyUnicode "C" ]} ]}] ∅).
Proof. vm_compute. reflexivity. Qed.

(** ** The list of search engines *)

Lemma ascii_compare_N (a b : ascii) :
  Ascii.compare a b = N.compare (N_of_ascii a) (N_of_ascii b).
Proof. reflexivity. Qed.

Lemma string_compare_trans_le (s1 s2 s3 : string) :
  String.compare s1 s2 ≠ Gt → String.compare s2 s3 ≠ Gt →
  String.compare s1 s3 ≠ Gt.
Proof.
  revert s2 s3. induction s1 as [|c1 s1 IH]; intros [|c2 s2] [|c3 s3];
    simpl; try done.
  rewrite !ascii_compare_N.
  destruct (N.compare_spec (N_of_ascii c1) (N_of_ascii c2)) as [H12|H12|H12];
    destruct (N.compare_spec (N_of_ascii c2) (N_of_ascii c3)) as [H23|H23|H23];
    destruct (N.compare_spec (N_of_ascii c1) (N_of_ascii c3)) as [H13|H13|H13];
    try done; try lia.
  apply IH.
Qed.

Lemma str_le_trans : Transitive str_le.
Proof.
  intros s1 s2 s3. unfold str_le, String.leb. intros H12 H23.
  pose proof (string_compare_trans_le s1 s2 s3) as Htr.
  destruct (String.compare s1 s2); destruct (String.compare s2 s3);
    destruct (String.compare s1 s3); try done; exfalso; by apply Htr.
Qed.

Lemma str_le_total : Total str_le.
Proof. intros s1 s2. apply String.leb_total. Qed.

(** X6.  The list of search engines holds exactly the names of the
    registry, each once, in ascending order: a name is never after a name
    that is greater. *)
Theorem v1_search_engines_sorted {E} (search_engines : gmap string E) :
  StronglySorted str_le (v1_search_engines search_engines)
  ∧ NoDup (v1_search_engines search_engines)
  ∧ length (v1_search_engines search_engines) = size search_engines
  ∧ ∀ name, name ∈ v1_search_engines search_engines
            ↔ is_Some (search_engines !! name).
Proof.
  unfold v1_search_engines.
  pose proof (merge_sort_Permutation str_le (map_to_list search_engines).*1)
    as Hperm.
  split.
  { apply (StronglySorted_merge_sort str_le (Transitive0 := str_le_trans)
             (Total0 := str_le_total)). }
  split. { rewrite Hperm. apply NoDup_fst_map_to_list. }
  split. { rewrite Hperm, length_fmap. by rewrite length_map_to_list. }
  intros name. rewrite Hperm, list_elem_of_fmap. split.
  - intros ([k e] & -> & Hin). exists e. by apply elem_of_map_to_list.
  - intros [e He]. exists (name, e). split; [done|].
    by apply elem_of_map_to_list.
Qed.

Example v1_search_engines_ex :
  v1_search_engines ex_search_engines
  = ["bad"; "scan"; "sharing"; "short"]%string
  ∧ v1_search_engines (∅ : gmap string nat) = [].
Proof. split; vm_compute; reflexivity. Qed.

(** ** Storing and retrieving a feature collection *)

Lemma fc_to_json_lookup (fc j : gmap string PyObj) (name : string)
    (feat : PyObj) :
  fc_to_json (PyFC fc) = ret j →
  j !! name = Some feat
  ↔ fc !! name = Some feat ∧ is_json_feature feat = true.
Proof.
  intros [= <-]. rewrite map_lookup_filter_Some. simpl.
  by rewrite Is_true_true.
Qed.

(** X7.  Retrieving a collection aborts with 404 exactly when the store has
    none under the content id; otherwise it returns the features of the
    stored collection that are unicode strings or string counters, with
    their values, and no other feature. *)
Theorem v1_fc_get_features (store : gmap string (gmap string PyObj))
    (cid : string) :
  (v1_fc_get store cid = raise (HTTPError 404) ↔ store !! cid = None)
  ∧ ∀ fc, store !! cid = Some fc →
      ∃ j, v1_fc_get store cid = ret j
           ∧ ∀ name feat,
               j !! name = Some feat
               ↔ fc !! name = Some feat ∧ is_json_feature feat = true.
Proof.
  unfold v1_fc_get, store_get. split.
  - destruct (store !! cid) as [fc|]; simpl; [|done].
    split; [|done]. discriminate.
  - intros fc ->. simpl. eexists. split; [reflexivity|].
    intros name feat. by apply fc_to_json_lookup.
Qed.

Example v1_fc_get_ex :
  v1_fc_get ex_store "a"
  = ret {[ "#nilsimsa_all"%string := PyStringCounter {[+ "bb"%string +]};
           "title"%string := PyUnicode "bb" ]}
  ∧ v1_fc_get ex_store "z" = raise (HTTPError 404).
Proof. split; vm_compute; reflexivity. Qed.

(** X8.  The JSON of a collection is its own JSON: converting what
    [fc_to_json] returned changes nothing. *)
Theorem fc_to_json_idempotent (fc : PyObj) (j : gmap string PyObj) :
  fc_to_json fc = ret j → fc_to_json (PyDict j) = ret j.
Proof.
  assert (∀ d : gmap string PyObj,
            filter (λ kv, is_json_feature kv.2)
              (filter (λ kv : string * PyObj, is_json_feature kv.2) d)
            = filter (λ kv, is_json_feature kv.2) d) as Hff.
  { intros d. apply map_eq. intros name. apply option_eq. intros feat.
    rewrite !map_lookup_filter_Some. tauto. }
  destruct fc; simpl; try done; intros [= <-]; unfold ret; f_equal;
    first [apply Hff | apply map_filter_empty | reflexivity].
Qed.

Lemma fc_to_json_idempotent_witness :
  fc_to_json
    (PyDict {[ "#nilsimsa_all"%string := PyStringCounter {[+ "aa"%string +]};
               "title"%string := PyUnicode "aa" ]})
  = ret {[ "#nilsimsa_all"%string := PyStringCounter {[+ "aa"%string +]};
           "title"%string := PyUnicode "aa" ]}.
Proof.
  apply (fc_to_json_idempotent (PyFC (ex_fc "aa"))).
  vm_compute. reflexivity.
Defined.

(** X9.  A put that succeeds answers 201 and leaves the headers as they
    were; the store then holds the decoded collection under the content id,
    over what it held there, and every other content id as before; and
    retrieving the content id gives the JSON of the collection that was
    put. *)
Theorem v1_fc_put_get `{Codec} (body : string) (response : Response)
    (store : gmap string (gmap string PyObj)) (cid : string) (d : PyObj)
    (fc : gmap string PyObj) :
  json_load body = ret d → from_dict d = ret fc →
  ∃ response' store',
    v1_fc_put body response store cid = ret (response', store')
    ∧ status response' = 201
    ∧ headers response' = headers response
    ∧ store' !! cid = Some fc
    ∧ v1_fc_get store' cid = fc_to_json (PyFC fc)
    ∧ ∀ cid', cid' ≠ cid →
        store' !! cid' = store !! cid'
        ∧ v1_fc_get store' cid' = v1_fc_get store cid'.
Proof.
  intros Hd Hfc. unfold v1_fc_put. rewrite Hd. simpl. rewrite Hfc. simpl.
  do 2 eexists. split; [reflexivity|]. simpl.
  split; [done|]. split; [done|].
  split; [apply lookup_insert_eq|].
  split. { unfold v1_fc_get, store_get. by rewrite lookup_insert_eq. }
  intros cid' Hne. unfold v1_fc_get, store_get.
  by rewrite lookup_insert_ne.
Qed.

Lemma v1_fc_put_get_witness :
  ∃ response' store',
    @v1_fc_put ex_codec "cc" ex_response ex_store "a"
    = ret (response', store')
    ∧ status response' = 201
    ∧ headers response' = headers ex_response
    ∧ store' !! "a"%string = Some (ex_fc "cc")
    ∧ v1_fc_get store' "a" = fc_to_json (PyFC (ex_fc "cc"))
    ∧ ∀ cid', cid' ≠ "a"%string →
        store' !! cid' = ex_store !! cid'
        ∧ v1_fc_get store' cid' = v1_fc_get ex_store cid'.
Proof.
  apply (@v1_fc_put_get ex_codec "cc" ex_response ex_store "a"
           (PyDict (ex_fc "cc")) (ex_fc "cc")); reflexivity.
Defined.

Example v1_fc_put_malformed :
  @v1_fc_put ex_codec "" ex_response ex_store "a" = raise ValueError.
Proof. reflexivity. Qed.

(** ** Labels *)

Lemma coref_value_int (n : Z) (v : CorefValue) :
  coref_value n = ret v ↔ coref_int v = n.
Proof.
  unfold coref_value. repeat case_bool_decide; subst; simpl;
    (split; [intros [= <-]; done|]); destruct v; simpl; try done; lia.
Qed.

Lemma label_to_json_fields (lab : Label) :
  label_to_json lab !! "content_id1"%string = Some (PyStr (content_id1 lab))
  ∧ label_to_json lab !! "content_id2"%string = Some (PyStr (content_id2 lab))
  ∧ label_to_json lab !! "annotator_id"%string
    = Some (PyStr (annotator_id lab))
  ∧ label_to_json lab !! "value"%string = Some (PyInt (coref_int (value lab)))
  ∧ label_to_json lab !! "subtopic_id1"%string
    = Some (py_opt_str (subtopic_id1 lab))
  ∧ label_to_json lab !! "subtopic_id2"%string
    = Some (py_opt_str (subtopic_id2 lab)).
Proof.
  unfold label_to_json. cbn [list_to_map foldr fst snd uncurry].
  repeat split;
    repeat first [ rewrite lookup_insert_eq; reflexivity
                 | rewrite lookup_insert_ne by done ].
Qed.

(** X10.  A label put with a body that reads as -1, 0 or 1 stores one
    label, made of the two content ids, the annotator, the value of the
    body and the subtopics of the query, before any hook; then every hook is
    created and called with that label, in the order of the list; and the
    answer is 201.  The JSON of the label holds the number of the body as
    its value. *)
Theorem v1_label_put_stores {H} (body : string) (request : Request)
    (response : Response) (label_hooks : list H)
    (cid1 cid2 annotator : string) (n : Z) :
  py_int body = Some n → -1 ≤ n ≤ 1 →
  ∃ lab,
    v1_label_put body request response label_hooks cid1 cid2 annotator
    = (PutLabel lab
         :: concat ((λ h, [CreatedHook h; CalledHook h lab]) <$> label_hooks),
       ret (MkResponse 201 (headers response)))
    ∧ content_id1 lab = cid1 ∧ content_id2 lab = cid2
    ∧ annotator_id lab = annotator
    ∧ coref_int (value lab) = n
    ∧ subtopic_id1 lab = Query.get "subtopic_id1" (query request)
    ∧ subtopic_id2 lab = Query.get "subtopic_id2" (query request)
    ∧ label_to_json lab !! "value"%string = Some (PyInt n).
Proof.
  intros Hn Hrange. unfold v1_label_put. rewrite Hn.
  destruct (coref_value n) as [e|v] eqn:Hv.
  - exfalso. revert Hv. unfold coref_value.
    repeat case_bool_decide; try done. lia.
  - apply coref_value_int in Hv. eexists. split; [reflexivity|]. simpl.
    repeat split; try done.
    destruct (label_to_json_fields
                (MkLabel cid1 cid2 annotator v
                   (Query.get "subtopic_id1" (query request))
                   (Query.get "subtopic_id2" (query request))))
      as (_ & _ & _ & Hval & _).
    rewrite Hval. simpl. by rewrite Hv.
Qed.

Lemma v1_label_put_stores_witness :
  ∃ lab,
    v1_label_put " -1 " (ex_request [("subtopic_id1", "s1")]%string)
      ex_response ["hook_a"; "hook_b"]%string "q" "a" "tester"
    = (PutLabel lab
         :: concat ((λ h, [CreatedHook h; CalledHook h lab])
                      <$> ["hook_a"; "hook_b"]%string),
       ret (MkResponse 201 (headers ex_response)))
    ∧ content_id1 lab = "q"%string ∧ content_id2 lab = "a"%string
    ∧ annotator_id lab = "tester"%string
    ∧ coref_int (value lab) = -1
    ∧ subtopic_id1 lab
      = Query.get "subtopic_id1"
          (query (ex_request [("subtopic_id1", "s1")]%string))
    ∧ subtopic_id2 lab
      = Query.get "subtopic_id2"
          (query (ex_request [("subtopic_id1", "s1")]%string))
    ∧ label_to_json lab !! "value"%string = Some (PyInt (-1)).
Proof.
  apply (v1_label_put_stores " -1 "
           (ex_request [("subtopic_id1", "s1")]%string) ex_response
           ["hook_a"; "hook_b"]%string "q" "a" "tester" (-1));
    [reflexivity|lia].
Defined.

(** X11.  A label put whose body is no integer, or an integer other than
    -1, 0 and 1, raises [ValueError]: nothing is stored, no hook is created
    or called, and the client sees status 500 and not 201. *)
Theorem v1_label_put_rejects {H} (body : string) (request : Request)
    (response : Response) (label_hooks : list H)
    (cid1 cid2 annotator : string) :
  py_int body = None ∨ (∃ n, py_int body = Some n ∧ (n < -1 ∨ 1 < n)) →
  v1_label_put body request response label_hooks cid1 cid2 annotator
  = ([], raise ValueError)
  ∧ http_status 201
      (v1_label_put body request response label_hooks cid1 cid2
         annotator).2 = 500.
Proof.
  intros Hbad.
  assert (v1_label_put body request response label_hooks cid1 cid2 annotator
          = ([], raise ValueError)) as ->; [|done].
  unfold v1_label_put. destruct Hbad as [->|(n & -> & Hn)]; [done|].
  unfold coref_value. rewrite !bool_decide_false by lia. done.
Qed.

Lemma v1_label_put_rejects_witness :
  v1_label_put "2" (ex_request []) ex_response ["hook_a"%string] "q" "a"
    "tester"
  = ([], raise ValueError)
  ∧ http_status 201
      (v1_label_put "2" (ex_request []) ex_response ["hook_a"%string] "q"
         "a" "tester").2 = 500.
Proof.
  apply (v1_label_put_rejects "2" (ex_request []) ex_response
           ["hook_a"%string] "q" "a" "tester").
  right. exists 2. split; [reflexivity|lia].
Defined.

Example v1_label_put_not_a_number :
  v1_label_put "yes" (ex_request []) ex_response ["hook_a"%string] "q" "a"
    "tester"
  = ([], raise ValueError).
Proof. reflexivity. Qed.

(** X12.  The JSON of a label tells the label: two labels with the same
    JSON are the same label. *)
Theorem label_to_json_inj (lab1 lab2 : Label) :
  label_to_json lab1 = label_to_json lab2 → lab1 = lab2.
Proof.
  intros Heq.
  destruct (label_to_json_fields lab1) as (A1 & B1 & C1 & D1 & E1 & F1).
  destruct (label_to_json_fields lab2) as (A2 & B2 & C2 & D2 & E2 & F2).
  rewrite Heq in A1, B1, C1, D1, E1, F1.
  rewrite A1 in A2. rewrite B1 in B2. rewrite C1 in C2. rewrite D1 in D2.
  rewrite E1 in E2. rewrite F1 in F2.
  destruct lab1 as [a1 b1 c1 v1 s1 t1], lab2 as [a2 b2 c2 v2 s2 t2].
  simpl in *.
  injection A2 as ->. injection B2 as ->. injection C2 as ->.
  injection D2 as Hv.
  assert (v1 = v2) as -> by (destruct v1, v2; simpl in Hv; done || lia).
  assert (s1 = s2) as ->
    by (destruct s1, s2; simpl in E2; congruence).
  assert (t1 = t2) as ->
    by (destruct t1, t2; simpl in F2; congruence).
  done.
Qed.

Lemma label_to_json_inj_witness : ex_label = ex_label.
Proof. apply (label_to_json_inj ex_label ex_label). reflexivity. Defined.

(** X13.  The [method] parameter of the positive endpoint chooses the
    traversal: absent or [connected], the connected component; [expanded],
    the expansion; any other name raises [KeyError] with that name, before
    the page parameters are read, so that the client sees status 500. *)
Theorem v1_label_positive_method `{Urllib} `{Sys} (request : Request)
    (response : Response) (label_store : LabelStore) (cid : string) :
  (Query.get "method" (query request) = None
   ∨ Query.get "method" (query request) = Some "connected"%string →
   v1_label_positive request response label_store cid
   = paginate request response
       (label_to_json <$> connected_component label_store cid))
  ∧ (Query.get "method" (query request) = Some "expanded"%string →
     v1_label_positive request response label_store cid
     = paginate request response
         (label_to_json <$> expand label_store cid))
  ∧ (∀ name, Query.get "method" (query request) = Some name →
       name ≠ "connected"%string → name ≠ "expanded"%string →
       v1_label_positive request response label_store cid
       = raise (KeyError name)
       ∧ http_status 200
           (v1_label_positive request response label_store cid) = 500).
Proof.
  unfold v1_label_positive. split; [|split].
  - intros [-> | ->]; reflexivity.
  - intros ->. reflexivity.
  - intros name -> H1 H2. simpl.
    by rewrite !bool_decide_false by done.
Qed.

Example v1_label_positive_ex :
  v1_label_positive
    (ex_label_request [("method", "shortest"); ("page", "x")]%string)
    ex_response ex_label_store "q"
  = raise (KeyError "shortest")
  ∧ snd <$> v1_label_positive (ex_label_request [("method", "expanded")]%string)
              ex_response ex_label_store "q"
    = ret [label_to_json ex_label].
Proof. split; vm_compute; reflexivity. Qed.

(** ** More of pagination *)

(** X14.  A page whose end index is at most [sys.maxint] is returned, and
    it is a run of consecutive items of the stream: the stream is what comes
    before it, the page, and what comes after it.  It never holds more than
    500 items, nor more than [perpage] asks for when that is at least 1, and
    it is that long when the stream goes on far enough. *)
Theorem paginate_page_size `{Urllib} `{Sys} {A} (request : Request)
    (response : Response) (it : list A) (page per : Z) :
  int_param "page" 1 (query request) = ret page →
  int_param "perpage" 2 (query request) = ret per →
  let per' := Z.min 500 (Z.max 1 per) in
  let start := (Z.max 1 page - 1) * per' in
  start + per' ≤ maxint →
  ∃ (response' : Response) (items : list A),
    paginate request response it = ret (response', items)
    ∧ it = take (Z.to_nat start) it ++ items
           ++ drop (Z.to_nat (start + per')) it
    ∧ Z.of_nat (length items) ≤ per'
    ∧ per' ≤ 500
    ∧ (1 ≤ per → per' ≤ per)
    ∧ (start + per' ≤ Z.of_nat (length it) →
       Z.of_nat (length items) = per').
Proof.
  intros Hpage Hper per' start Hmax.
  do 2 eexists. split; [by apply paginate_ok|].
  fold per' start.
  replace (start + per' - start) with per' by lia.
  assert (0 ≤ start) by (apply Z.mul_nonneg_nonneg; lia).
  split.
  { replace (Z.to_nat (start + per'))
      with (Z.to_nat start + Z.to_nat per')%nat by lia.
    by rewrite <- drop_drop, !take_drop. }
  rewrite length_take, length_drop. lia.
Qed.

Lemma paginate_page_size_witness :
  let request := ex_label_request [("page", "2"); ("perpage", "900")]%string in
  let it := Z.of_nat <$> seq 0 1200 in
  let per' := Z.min 500 (Z.max 1 900) in
  let start := (Z.max 1 2 - 1) * per' in
  ∃ (response' : Response) (items : list Z),
    paginate request ex_response it = ret (response', items)
    ∧ it = take (Z.to_nat start) it ++ items
           ++ drop (Z.to_nat (start + per')) it
    ∧ Z.of_nat (length items) ≤ per'
    ∧ per' ≤ 500
    ∧ (1 ≤ 900 → per' ≤ 900)
    ∧ (start + per' ≤ Z.of_nat (length it) →
       Z.of_nat (length items) = per').
Proof.
  apply (paginate_page_size
           (ex_label_request [("page", "2"); ("perpage", "900")]%string)
           ex_response (Z.of_nat <$> seq 0 1200) 2 900);
    [reflexivity|reflexivity|vm_compute; discriminate].
Defined.

Lemma concat_takes {A} (it : list A) (p n : nat) :
  concat ((λ k, take p (drop (k * p) it)) <$> seq 0 n) = take (n * p) it.
Proof.
  induction n as [|n IH]; [done|].
  rewrite seq_S, fmap_app, concat_app, IH. simpl. rewrite app_nil_r.
  replace (p + n * p)%nat with (n * p + p)%nat by lia.
  apply take_take_drop.
Qed.

(** X15.  The pages tile the stream: with the same [perpage], the pages 1
    to [n] one after the other are the first [n] times the page size items
    of the stream, so that no item is skipped and none comes twice. *)
Theorem paginate_pages_tile `{Urllib} `{Sys} {A} (requests : list Request)
    (response : Response) (it : list A) (per : Z)
    (pages : list (list A)) :
  Forall2 (λ k request,
             int_param "page" 1 (query request) = ret (Z.of_nat k)
             ∧ int_param "perpage" 2 (query request) = ret per)
    (seq 1 (length requests)) requests →
  Forall2 (λ request items,
             ∃ response',
               paginate request response it = ret (response', items))
    requests pages →
  concat pages
  = take (length requests * Z.to_nat (Z.min 500 (Z.max 1 per))) it.
Proof.
  intros Hreq Hpages.
  set (p := Z.to_nat (Z.min 500 (Z.max 1 per))).
  rewrite <- concat_takes. f_equal.
  apply list_eq. intros i. rewrite list_lookup_fmap.
  destruct (pages !! i) as [items|] eqn:Hi.
  - destruct (Forall2_lookup_r _ _ _ _ _ Hpages Hi)
      as (request & Hr & response' & Hpag).
    destruct (Forall2_lookup_r _ _ _ _ _ Hreq Hr) as (k & Hk & Hpage & Hper).
    apply lookup_seq in Hk as [-> Hlt].
    rewrite lookup_seq_lt by done. simpl.
    apply paginate_inv in Hpag as (page' & per' & Hpage' & Hper' & _ & _ & ->).
    rewrite Hpage in Hpage'. rewrite Hper in Hper'.
    injection Hpage' as <-. injection Hper' as <-. f_equal. fold p.
    replace (Z.max 1 (Z.of_nat (1 + i)) - 1) with (Z.of_nat i) by lia.
    f_equal; [lia|]. f_equal. lia.
  - apply lookup_ge_None in Hi.
    rewrite <- (Forall2_length _ _ _ Hpages) in Hi.
    by rewrite lookup_seq_ge.
Qed.

Lemma paginate_pages_tile_witness :
  let requests :=
    [ex_label_request [("page", "1")]%string;
     ex_label_request [("page", "2")]%string;
     ex_label_request [("page", "3")]%string] in
  concat [[10; 11]; [12; 13]; [14]]
  = take (length requests * Z.to_nat (Z.min 500 (Z.max 1 2)))
      [10; 11; 12; 13; 14].
Proof.
  apply (paginate_pages_tile
           [ex_label_request [("page", "1")]%string;
            ex_label_request [("page", "2")]%string;
            ex_label_request [("page", "3")]%string]
           ex_response [10; 11; 12; 13; 14] 2 [[10; 11]; [12; 13]; [14]]).
  - repeat constructor.
  - repeat (constructor; [eexists; reflexivity|]). constructor.
Defined.

(** X16.  Pagination sets the [Link] header and nothing else: the status of
    the response and every other header are as they were, and a [Link]
    header that was there is replaced. *)
Theorem paginate_only_link `{Urllib} `{Sys} {A} (request : Request)
    (response : Response) (it : list A) (response' : Response)
    (items : list A) :
  paginate request response it = ret (response', items) →
  status response' = status response
  ∧ (∀ name, name ≠ "Link"%string →
             headers response' !! name = headers response !! name)
  ∧ ∃ page,
      int_param "page" 1 (query request) = ret page
      ∧ headers response' !! "Link"%string
        = Some (join ", "
                  (tuple_to_link <$> links request (Z.max 1 page))).
Proof.
  intros (page & per & Hpage & Hper & _ & -> & _)%paginate_inv.
  unfold add_link_headers. simpl. split; [done|]. split.
  - intros name Hne. by rewrite lookup_insert_ne.
  - exists page. split; [done|]. apply lookup_insert_eq.
Qed.

Lemma paginate_only_link_witness :
  let request := ex_label_request [("page", "1")]%string in
  let response :=
    MkResponse 200
      {[ "Link"%string := "stale"%string;
         "Content-Type"%string := "application/json"%string ]} in
  let response' :=
    MkResponse 200
      {[ "Link"%string :=
           tuple_to_link
             ("next"%string,
              "http://localhost/dossier/v1/label/q/direct?page=2"%string);
         "Content-Type"%string := "application/json"%string ]} in
  status response' = status response
  ∧ (∀ name, name ≠ "Link"%string →
             headers response' !! name = headers response !! name)
  ∧ ∃ page,
      int_param "page" 1 (query request) = ret page
      ∧ headers response' !! "Link"%string
        = Some (join ", "
                  (tuple_to_link <$> links request (Z.max 1 page))).
Proof.
  apply (paginate_only_link (ex_label_request [("page", "1")]%string)
           (MkResponse 200
              {[ "Link"%string := "stale"%string;
                 "Content-Type"%string := "application/json"%string ]})
           [10; 11; 12] _ [10; 11]).
  vm_compute. reflexivity.
Defined.

(** ** The random texts of the tests *)

Lemma candidate_chars_length : length candidate_chars = 70%nat.
Proof. reflexivity. Qed.

Lemma choice_elem (r : nat) (l : list ascii) : l ≠ [] → choice r l ∈ l.
Proof.
  intros Hl. unfold choice.
  assert (r mod length l < length l)%nat as Hlt.
  { apply Nat.mod_upper_bound. by destruct l. }
  destruct (lookup_lt_is_Some_2 l _ Hlt) as [c Hc]. rewrite Hc. simpl.
  by eapply list_elem_of_lookup_2.
Qed.

Lemma choice_candidate (r : nat) : choice r candidate_chars ∈ candidate_chars.
Proof. by apply choice_elem. Qed.

(** X17.  A random text of [N] characters has [N] characters, every one of
    them among the 70 candidate characters, of which 8 are blanks. *)
Theorem random_text_chars (rand : nat → nat) (N : nat) :
  length (random_text rand N) = N
  ∧ Forall (λ c, c ∈ candidate_chars) (random_text rand N)
  ∧ length candidate_chars = 70%nat
  ∧ length (filter (λ c, c = " "%char) candidate_chars) = 8%nat.
Proof.
  unfold random_text. split; [by rewrite length_fmap, length_seq|].
  split; [|split; reflexivity].
  apply Forall_fmap, Forall_forall. intros k _. apply choice_candidate.
Qed.

Example random_text_ex :
  random_text (λ k, (k * 9)%nat) 8
  = String.list_ascii_of_string "ajsBKT2 ".
Proof. vm_compute. reflexivity. Qed.

Lemma mutate_from_spec (rand : nat → nat) (text : list ascii)
    (idxs : list nat) (prev k : nat) :
  StronglySorted le idxs → NoDup idxs →
  Forall (λ i, prev ≤ i < length text)%nat idxs →
  (prev ≤ length text)%nat →
  length (mutate_from rand text prev k idxs) = (length text - prev)%nat
  ∧ (∀ j, (prev + j)%nat ∉ idxs →
          mutate_from rand text prev k idxs !! j = text !! (prev + j)%nat)
  ∧ (∀ j, (prev + j)%nat ∈ idxs →
          ∃ c, mutate_from rand text prev k idxs !! j = Some c
               ∧ c ∈ candidate_chars).
Proof.
  revert prev k.
  induction idxs as [|idx idxs IH]; intros prev k Hsort Hnd Hall Hprev.
  - simpl. split; [by rewrite length_drop|]. split.
    + intros j _. by rewrite lookup_drop.
    + intros j Hin. by apply elem_of_nil in Hin.
  - apply StronglySorted_inv in Hsort as [Hsort Hle].
    apply NoDup_cons in Hnd as [Hnotin Hnd].
    apply Forall_cons in Hall as [[Hlo Hhi] Hall].
    assert (Forall (λ i, S idx ≤ i < length text)%nat idxs) as Hall'.
    { rewrite Forall_forall in Hle, Hall |- *. intros i Hi.
      specialize (Hle i Hi). specialize (Hall i Hi).
      assert (i ≠ idx) by (intros ->; done). lia. }
    destruct (IH (S idx) (S k) Hsort Hnd Hall' ltac:(lia))
      as (IHlen & IHout & IHin).
    assert (length (py_slice text prev idx) = (idx - prev)%nat) as Hslice.
    { unfold py_slice. rewrite length_take, length_drop. lia. }
    cbn [mutate_from]. split; [|split].
    + rewrite length_app, Hslice. cbn [length]. rewrite IHlen. lia.
    + intros j Hj. rewrite not_elem_of_cons in Hj. destruct Hj as [Hne Hj].
      destruct (decide (j < idx - prev)%nat) as [Hlt|Hge].
      * rewrite lookup_app_l by lia. unfold py_slice.
        rewrite lookup_take_lt by done. by rewrite lookup_drop.
      * rewrite lookup_app_r by lia. rewrite Hslice.
        destruct (j - (idx - prev))%nat as [|j'] eqn:Hj'; [lia|].
        simpl. rewrite IHout.
        -- f_equal. lia.
        -- by replace (S idx + j')%nat with (prev + j)%nat by lia.
    + intros j Hj. apply elem_of_cons in Hj as [Hj|Hj].
      * rewrite lookup_app_r by lia. rewrite Hslice.
        replace (j - (idx - prev))%nat with 0%nat by lia. simpl.
        eexists. split; [done|]. apply choice_candidate.
      * assert (S idx ≤ prev + j)%nat.
        { rewrite Forall_forall in Hall'. by apply Hall'. }
        rewrite lookup_app_r by lia. rewrite Hslice.
        destruct (j - (idx - prev))%nat as [|j'] eqn:Hj'; [lia|].
        simpl. apply IHin.
        by replace (S idx + j')%nat with (prev + j)%nat by lia.
Qed.

(** X18.  A mutation keeps the length of the text.  When the sampled
    positions are distinct positions of the text, as [random.sample] gives
    them, every other position keeps its character, and every sampled
    position holds a candidate character. *)
Theorem mutate_positions (rand : nat → nat) (text : list ascii)
    (sample : list nat) :
  NoDup sample → Forall (λ i, i < length text)%nat sample →
  length (mutate rand text sample) = length text
  ∧ (∀ i, i ∉ sample → mutate rand text sample !! i = text !! i)
  ∧ (∀ i, i ∈ sample →
          ∃ c, mutate rand text sample !! i = Some c ∧ c ∈ candidate_chars).
Proof.
  intros Hnd Hall. unfold mutate.
  pose proof (merge_sort_Permutation le sample) as Hperm.
  destruct (mutate_from_spec rand text (merge_sort le sample) 0 0)
    as (Hlen & Hout & Hin).
  - apply (StronglySorted_merge_sort le).
  - by rewrite Hperm.
  - rewrite Hperm. eapply Forall_impl; [exact Hall|]. simpl. lia.
  - lia.
  - split; [rewrite Hlen; lia|]. split.
    + intros i Hi. apply (Hout i). simpl. by rewrite Hperm.
    + intros i Hi. apply (Hin i). simpl. by rewrite Hperm.
Qed.

Lemma mutate_positions_witness :
  let text := String.list_ascii_of_string "The quick brown fox" in
  let sample := [10; 4]%nat in
  let rand k := (k * 30 + 3)%nat in
  length (mutate rand text sample) = length text
  ∧ (∀ i, i ∉ sample → mutate rand text sample !! i = text !! i)
  ∧ (∀ i, i ∈ sample →
          ∃ c, mutate rand text sample !! i = Some c ∧ c ∈ candidate_chars).
Proof.
  apply (mutate_positions (λ k, (k * 30 + 3)%nat)
           (String.list_ascii_of_string "The quick brown fox")
           [10; 4]%nat).
  - apply NoDup_cons. split; [|apply NoDup_singleton].
    intros Hin. apply list_elem_of_singleton in Hin. discriminate.
  - repeat constructor; simpl; lia.
Defined.

Example mutate_ex :
  mutate (λ k, (k * 30 + 3)%nat)
    (String.list_ascii_of_string "The quick brown fox") [10; 4]%nat
  = String.list_ascii_of_string "The duick Hrown fox".
Proof. vm_compute. reflexivity. Qed.

(** X19.  The candidates the tests make from a list of texts are as many as
    the texts, the one at position [i] is the decimal writing of [i] with
    the collection of the text at [i], and no two of them share a content
    id, so that none overwrites another in a store. *)
Theorem enumerate_fcs_ids `{Nilsimsa} (texts : list string) :
  length (enumerate_fcs texts) = length texts
  ∧ NoDup (enumerate_fcs texts).*1
  ∧ ∀ i, enumerate_fcs texts !! i
         = (λ text, (py_str (Z.of_nat i), make_fc text)) <$> texts !! i.
Proof.
  unfold enumerate_fcs. split; [apply length_imap|]. split.
  - rewrite fmap_imap.
    rewrite (imap_ext _ (λ i _, py_str (Z.of_nat i))) by done.
    rewrite (imap_seq_0 texts (λ i, py_str (Z.of_nat i))).
    apply NoDup_fmap_2; [|apply NoDup_seq].
    intros i j Hij. unfold py_str in Hij.
    apply (inj pretty) in Hij. lia.
  - intros i. by rewrite list_lookup_imap.
Qed.

Example enumerate_fcs_ex :
  (@enumerate_fcs ex_nilsimsa near_duplicate_texts).*1
  = ["0"; "1"; "2"; "3"]%string.
Proof. vm_compute. reflexivity. Qed.
